(** * The live backend's conversation relay (live-backend/main.py)

    A shallow embedding of the WebSocket audio interface, the conversation
    manager and the per-connection handler, with the calls that leave the
    program (the conversation engine, the socket, the event loop, logging)
    recorded in a trace and answered by a script. *)

From Stdlib.Strings Require Import Byte Ascii String.
From stdpp Require Import base gmap strings list pretty.

(** ** Python values *)

Definition bytes := list byte.

(** Values that [json.loads] produces and [send_json] accepts.  A float is
    kept as the text [repr] gives for it. *)
#[warnings="-register-all"] Inductive json :=
| JNull
| JBool (b : bool)
| JInt (z : Z)
| JFloat (repr : string)
| JStr (s : string)
| JArr (items : list json)
| JObj (fields : list (string * json)).

(** Instances of [Exception].  [LibraryError cls msg] stands for any other
    exception a library or the engine SDK raises; [msg] is its [str]. *)
Inductive exn :=
| HTTPException (status_code : Z) (detail : string)
| WebSocketDisconnect
| RuntimeError (msg : string)
| AttributeError (msg : string)
| LibraryError (cls msg : string).

Definition type_name (v : json) : string :=
  match v with
  | JNull => "NoneType"
  | JBool _ => "bool"
  | JInt _ => "int"
  | JFloat _ => "float"
  | JStr _ => "str"
  | JArr _ => "list"
  | JObj _ => "dict"
  end.

Fixpoint assoc_get (key : string) (fields : list (string * json)) : option json :=
  match fields with
  | [] => None
  | (k, v) :: rest => if String.eqb k key then Some v else assoc_get key rest
  end.

(** [message.get(key, default)]: only a dict has the method. *)
Definition dict_get (message : json) (key : string) (default : json) : exn + json :=
  match message with
  | JObj fields => inr (from_option id default (assoc_get key fields))
  | other =>
      inl (AttributeError ("'" +:+ type_name other +:+ "' object has no attribute 'get'"))
  end.

(** [v == s] for a string literal [s]. *)
Definition eq_str (v : json) (s : string) : bool :=
  match v with
  | JStr t => String.eqb t s
  | _ => false
  end.

(** What the interpreter and the web framework decide: the JSON decoder, the
    text of a list or dict inside an f-string, and [str] of the framework's
    own exceptions. *)
Class Runtime := {
  json_loads : string → exn + json;
  container_str : json → string;
  framework_str : exn → string
}.

Section Formatting.
Context {RT : Runtime}.

(** [f"{v}"] *)
Definition py_str (v : json) : string :=
  match v with
  | JNull => "None"
  | JBool true => "True"
  | JBool false => "False"
  | JInt z => pretty z
  | JFloat r => r
  | JStr s => s
  | JArr _ | JObj _ => container_str v
  end.

(** [f"{e}"] *)
Definition exc_str (e : exn) : string :=
  match e with
  | RuntimeError msg | AttributeError msg | LibraryError _ msg => msg
  | HTTPException _ _ | WebSocketDisconnect => framework_str e
  end.

End Formatting.

(** ** base64.b64encode *)

Definition b64_alphabet : string :=
  "ABCDEFGHIJKLMNOPQRSTUVWXYZabcdefghijklmnopqrstuvwxyz0123456789+/".

Definition b64_char (n : N) : ascii :=
  from_option id "="%char (String.get (N.to_nat n) b64_alphabet).

Fixpoint b64encode (data : bytes) : string :=
  match data with
  | [] => ""
  | [a] =>
      let x := Byte.to_N a in
      String (b64_char (x `div` 4))
        (String (b64_char ((x `mod` 4) * 16)) "==")
  | [a; b] =>
      let x := Byte.to_N a in
      let y := Byte.to_N b in
      String (b64_char (x `div` 4))
        (String (b64_char ((x `mod` 4) * 16 + y `div` 16))
           (String (b64_char ((y `mod` 16) * 4)) "="))
  | a :: b :: c :: rest =>
      let x := Byte.to_N a in
      let y := Byte.to_N b in
      let z := Byte.to_N c in
      String (b64_char (x `div` 4))
        (String (b64_char ((x `mod` 4) * 16 + y `div` 16))
           (String (b64_char ((y `mod` 16) * 4 + z `div` 64))
              (String (b64_char (z `mod` 64)) (b64encode rest))))
  end%N.

(** ** datetime.now().strftime('%Y%m%d_%H%M%S') *)

Record DateTime := {
  year : N; month : N; day : N;
  hour : N; minute : N; second : N;
  microsecond : N
}.

(** Two decimal digits, as [%m], [%d], [%H], [%M] and [%S] print a field. *)
Definition pad2 (n : N) : string :=
  String (pretty_N_char (n `div` 10)) (String (pretty_N_char (n `mod` 10)) "").

Definition strftime (t : DateTime) : string :=
  pretty (year t) +:+ pad2 (month t) +:+ pad2 (day t) +:+ "_"
  +:+ pad2 (hour t) +:+ pad2 (minute t) +:+ pad2 (second t).

(** The fields [datetime] allows. *)
Definition valid_datetime (t : DateTime) : Prop :=
  (1 ≤ year t ≤ 9999 ∧ 1 ≤ month t ≤ 12 ∧ 1 ≤ day t ≤ 31 ∧
   hour t < 24 ∧ minute t < 60 ∧ second t < 60 ∧ microsecond t < 1000000)%N.

(** The clock reading with the part [strftime] drops removed. *)
Definition to_second (t : DateTime) : DateTime :=
  {| year := year t; month := month t; day := day t;
     hour := hour t; minute := minute t; second := second t;
     microsecond := 0 |}.

(** No character of the string is an underscore. *)
Fixpoint no_underscore (s : string) : Prop :=
  match s with
  | "" => True
  | String c rest => c ≠ "_"%char ∧ no_underscore rest
  end.

(** ** Configuration and program state *)

Record Config := {
  ELEVENLABS_API_KEY : option string;
  AGENT_ID : option string;
  OUTPUT_SAMPLE_RATE_HZ : Z
}.

(** Truth value of an [Optional[str]]: [None] and the empty string are false. *)
Definition truthy (o : option string) : bool :=
  match o with
  | Some s => negb (String.eqb s "")
  | None => false
  end.

(** A connection object: which connection it is, and what [id()] gives for it. *)
Record WebSocket := { ws_conn : N; ws_id : N }.

Record WebSocketAudioInterface := {
  websocket : WebSocket;
  is_recording : bool;
  audio_queue : list bytes;
  input_callback : option N;
  loop : option N
}.

(** One entry of [ConversationManager.conversations].  The engine handle and
    the audio interface are references to objects. *)
Record ConvData := {
  conversation : N;
  conv_websocket : WebSocket;
  audio_interface : N;
  user_id : option string;
  created_at : DateTime;
  is_active : bool
}.

Record ConversationManager := {
  conversations : gmap string ConvData;
  elevenlabs_client : option string
}.

(** Calls that leave the program, in the order they are made; [Raised e]
    follows a call that raised [e]. *)
Inductive Event :=
| Log (level msg : string)
| Accept (ws : WebSocket)
| SendJson (ws : WebSocket) (payload : json)
| NewConversation (handle : N) (client agent_id : option string)
    (requires_auth : bool) (audio : N) (session_id : string)
| StartSession (handle : N)
| EndSession (handle : N)
| InputCallback (callback : N) (audio_data : bytes)
| RunCoroutineThreadsafe (ws : WebSocket) (payload : json) (on_loop : N)
| FutureResult (timeout_seconds : Z)
| Raised (e : exn).

(** How the outside answers a call: it returns or it raises.  What the
    engine does to the audio interface on its own thread while a session
    starts, runs or ends (the SDK calls the interface's [start] with its
    callback, its [stop] and its [output]) is no part of an answer: those
    are steps of their own, the interface's methods applied to the world. *)
Inductive Answer :=
| Returns
| Raises (e : exn).

(** [pending] scripts the answers of the calls to come, one per call; once
    it is used up every call returns.  [clock] gives the successive readings
    of [datetime.now()], [event_loop] what [asyncio.get_event_loop()] does
    in the calling context. *)
Record World := {
  manager : ConversationManager;
  heap : gmap N WebSocketAudioInterface;
  next_ref : N;
  trace : list Event;
  pending : list Answer;
  clock : nat → DateTime;
  ticks : nat;
  event_loop : exn + N
}.

Definition set_manager (f : ConversationManager → ConversationManager) (w : World) : World :=
  {| manager := f (manager w); heap := heap w; next_ref := next_ref w;
     trace := trace w; pending := pending w; clock := clock w;
     ticks := ticks w; event_loop := event_loop w |}.

Definition set_heap (f : gmap N WebSocketAudioInterface → gmap N WebSocketAudioInterface)
    (w : World) : World :=
  {| manager := manager w; heap := f (heap w); next_ref := next_ref w;
     trace := trace w; pending := pending w; clock := clock w;
     ticks := ticks w; event_loop := event_loop w |}.

Definition set_next_ref (n : N) (w : World) : World :=
  {| manager := manager w; heap := heap w; next_ref := n;
     trace := trace w; pending := pending w; clock := clock w;
     ticks := ticks w; event_loop := event_loop w |}.

Definition set_trace (t : list Event) (w : World) : World :=
  {| manager := manager w; heap := heap w; next_ref := next_ref w;
     trace := t; pending := pending w; clock := clock w;
     ticks := ticks w; event_loop := event_loop w |}.

Definition set_pending (p : list Answer) (w : World) : World :=
  {| manager := manager w; heap := heap w; next_ref := next_ref w;
     trace := trace w; pending := p; clock := clock w;
     ticks := ticks w; event_loop := event_loop w |}.

Definition set_ticks (n : nat) (w : World) : World :=
  {| manager := manager w; heap := heap w; next_ref := next_ref w;
     trace := trace w; pending := pending w; clock := clock w;
     ticks := n; event_loop := event_loop w |}.

Definition set_conversations (f : gmap string ConvData → gmap string ConvData)
    (m : ConversationManager) : ConversationManager :=
  {| conversations := f (conversations m); elevenlabs_client := elevenlabs_client m |}.

Definition set_is_active (b : bool) (c : ConvData) : ConvData :=
  {| conversation := conversation c; conv_websocket := conv_websocket c;
     audio_interface := audio_interface c; user_id := user_id c;
     created_at := created_at c; is_active := b |}.

Definition set_is_recording (b : bool) (a : WebSocketAudioInterface) : WebSocketAudioInterface :=
  {| websocket := websocket a; is_recording := b; audio_queue := audio_queue a;
     input_callback := input_callback a; loop := loop a |}.

Definition set_audio_queue (q : list bytes) (a : WebSocketAudioInterface) : WebSocketAudioInterface :=
  {| websocket := websocket a; is_recording := is_recording a; audio_queue := q;
     input_callback := input_callback a; loop := loop a |}.

Definition set_input_callback (c : option N) (a : WebSocketAudioInterface) : WebSocketAudioInterface :=
  {| websocket := websocket a; is_recording := is_recording a;
     audio_queue := audio_queue a; input_callback := c; loop := loop a |}.

Definition set_loop (l : option N) (a : WebSocketAudioInterface) : WebSocketAudioInterface :=
  {| websocket := websocket a; is_recording := is_recording a;
     audio_queue := audio_queue a; input_callback := input_callback a; loop := l |}.

(** ** The monad: state, exceptions, and a coroutine waiting for input *)

Inductive Res (A : Type) :=
| Ok (a : A)
| Raise (e : exn)
| Awaiting.
Arguments Ok {A} a.
Arguments Raise {A} e.
Arguments Awaiting {A}.

Definition M (A : Type) : Type := World → Res A * World.

Global Instance M_ret : MRet M := λ A a w, (Ok a, w).

Global Instance M_bind : MBind M := λ A B f m w,
  match m w with
  | (Ok a, w') => f a w'
  | (Raise e, w') => (Raise e, w')
  | (Awaiting, w') => (Awaiting, w')
  end.

Definition raise {A} (e : exn) : M A := λ w, (Raise e, w).

(** The coroutine is suspended in [await] and nothing more arrives. *)
Definition awaiting {A} : M A := λ w, (Awaiting, w).

Definition lift {A} (r : exn + A) : M A :=
  match r with
  | inr a => mret a
  | inl e => raise e
  end.

(** [try: m  except Exception as e: handler e] *)
Definition try_except {A} (m : M A) (handler : exn → M A) : M A := λ w,
  match m w with
  | (Raise e, w') => handler e w'
  | other => other
  end.

(** [try: m  finally: final] *)
Definition try_finally {A} (m : M A) (final : M unit) : M A := λ w,
  match m w with
  | (Awaiting, w') => (Awaiting, w')
  | (r, w') =>
      match final w' with
      | (Ok _, w'') => (r, w'')
      | (Raise e, w'') => (Raise e, w'')
      | (Awaiting, w'') => (Awaiting, w'')
      end
  end.

(** The outcome of [m] as a value. *)
Definition attempt {A} (m : M A) : M (exn + A) := λ w,
  match m w with
  | (Ok a, w') => (Ok (inr a), w')
  | (Raise e, w') => (Ok (inl e), w')
  | (Awaiting, w') => (Awaiting, w')
  end.

Definition get_world : M World := λ w, (Ok w, w).
Definition modify (f : World → World) : M unit := λ w, (Ok tt, f w).

Definition emit (ev : Event) : M unit :=
  modify (λ w, set_trace (trace w ++ [ev]) w).

(** A call to the outside: recorded, then answered by the script. *)
Definition call (ev : Event) : M unit :=
  emit ev ;;
  w ← get_world;
  match pending w with
  | [] => mret tt
  | Returns :: rest => modify (set_pending rest)
  | Raises e :: rest => modify (set_pending rest) ;; emit (Raised e) ;; raise e
  end.

(** The answer the next call gets, and what it adds to the trace. *)
Definition answered (w : World) : Res unit :=
  match pending w with
  | Raises e :: _ => Raise e
  | _ => Ok tt
  end.

Definition raised_mark (w : World) : list Event :=
  match pending w with
  | Raises e :: _ => [Raised e]
  | _ => []
  end.

Definition called (ev : Event) (w : World) : World :=
  set_pending (tail (pending w)) (set_trace (trace w ++ ev :: raised_mark w) w).

(** [r] is the exception of a send on [ws], the last call in the trace. *)
Definition send_failed (ws : WebSocket) (r : Res unit) (w' : World) : Prop :=
  ∃ t payload e, r = Raise e ∧ trace w' = t ++ [SendJson ws payload; Raised e].

(** The world after [m] ran, and its outcome. *)
Definition after {A} (m : M A) (w : World) : World := snd (m w).
Definition outcome {A} (m : M A) (w : World) : Res A := fst (m w).

Definition log (level msg : string) : M unit := emit (Log level msg).

Definition datetime_now : M DateTime :=
  w ← get_world;
  modify (set_ticks (S (ticks w))) ;;
  mret (clock w (ticks w)).

Definition get_event_loop : M N :=
  w ← get_world;
  lift (event_loop w).

Definition send_json (ws : WebSocket) (payload : json) : M unit :=
  call (SendJson ws payload).

(** A fresh object reference. *)
Definition new_ref : M N :=
  w ← get_world;
  modify (set_next_ref (N.succ (next_ref w))) ;;
  mret (next_ref w).

Section Relay.
Context {RT : Runtime}.
Variable config : Config.

(** ** class WebSocketAudioInterface *)

(** Attribute access on the object behind a reference. *)
Definition read_obj (self : N) : M WebSocketAudioInterface :=
  w ← get_world;
  match heap w !! self with
  | Some obj => mret obj
  | None => raise (LibraryError "ReferenceError" "no object behind the reference")
  end.

Definition update_obj (self : N) (f : WebSocketAudioInterface → WebSocketAudioInterface)
    : M unit :=
  modify (set_heap (alter f self)).

(** [WebSocketAudioInterface(websocket)] *)
Definition WebSocketAudioInterface_init (ws : WebSocket) : M N :=
  captured ← try_except
    (l ← get_event_loop; mret (Some l))
    (λ e, match e with
          | RuntimeError _ => mret None
          | _ => raise e
          end);
  self ← new_ref;
  modify (set_heap (insert self
    {| websocket := ws; is_recording := false; audio_queue := [];
       input_callback := None; loop := captured |})) ;;
  mret self.

Definition start (self : N) (callback : N) : M unit :=
  update_obj self (set_input_callback (Some callback)) ;;
  update_obj self (set_is_recording true) ;;
  log "info" "Started WebSocket audio interface".

Definition stop (self : N) : M unit :=
  update_obj self (set_is_recording false) ;;
  log "info" "Stopped WebSocket audio interface".

Definition audio_payload (audio_data : bytes) : json :=
  JObj [("type", JStr "audio");
        ("audio_data", JStr (b64encode audio_data));
        ("encoding", JStr "pcm16");
        ("sample_rate_hz", JInt (OUTPUT_SAMPLE_RATE_HZ config))].

(** [output(self, audio_data)]; the wait on the future is [timeout=2.0]. *)
Definition output (self : N) (audio_data : bytes) : M unit :=
  try_except
    (obj ← read_obj self;
     on_loop ← match loop obj with
               | Some l => mret l
               | None =>
                   l ← get_event_loop;
                   update_obj self (set_loop (Some l)) ;;
                   mret l
               end;
     let payload := audio_payload audio_data in
     call (RunCoroutineThreadsafe (websocket obj) payload on_loop) ;;
     try_except (call (FutureResult 2)) (λ _, mret tt))
    (λ e, log "error" ("Error forwarding audio to WebSocket: " +:+ exc_str e)).

Definition queue_audio (self : N) (audio_data : bytes) : M unit :=
  obj ← read_obj self;
  update_obj self (set_audio_queue (audio_queue obj ++ [audio_data])) ;;
  match input_callback obj, is_recording obj with
  | Some callback, true =>
      try_except
        (call (InputCallback callback audio_data))
        (λ e, log "error" ("Error in input callback: " +:+ exc_str e))
  | _, _ => mret tt
  end.

(** ** class ConversationManager *)

(** [ConversationManager()]: the client exists when the key is set. *)
Definition ConversationManager_init : ConversationManager :=
  {| conversations := ∅;
     elevenlabs_client :=
       if truthy (ELEVENLABS_API_KEY config) then ELEVENLABS_API_KEY config else None |}.

Definition session_id_of (now : DateTime) (ws : WebSocket) : string :=
  "session_" +:+ strftime now +:+ "_" +:+ pretty (ws_id ws).

(** [Conversation(client, agent_id, requires_auth=..., audio_interface=..., ...)] *)
Definition new_conversation (client agent : option string) (requires_auth : bool)
    (audio : N) (session_id : string) : M N :=
  handle ← new_ref;
  call (NewConversation handle client agent requires_auth audio session_id) ;;
  mret handle.

Definition create_conversation (ws : WebSocket) (uid : option string) : M string :=
  now ← datetime_now;
  let session_id := session_id_of now ws in
  w ← get_world;
  if negb (bool_decide (is_Some (elevenlabs_client (manager w))))
     || negb (truthy (AGENT_ID config))
  then raise (HTTPException 500 "ElevenLabs not properly configured")
  else
    audio ← WebSocketAudioInterface_init ws;
    handle ← new_conversation (elevenlabs_client (manager w)) (AGENT_ID config)
                (truthy (ELEVENLABS_API_KEY config)) audio session_id;
    created ← datetime_now;
    modify (set_manager (set_conversations (insert session_id
      {| conversation := handle; conv_websocket := ws; audio_interface := audio;
         user_id := uid; created_at := created; is_active := false |}))) ;;
    log "info" ("Created conversation session: " +:+ session_id) ;;
    mret session_id.

(** [conv_data["is_active"] = b] on the entry's dict. *)
Definition assign_is_active (session_id : string) (b : bool) : M unit :=
  modify (set_manager (set_conversations (alter (set_is_active b) session_id))).

(** [start_conversation]; the nested [start_session] runs on the executor
    and the coroutine waits for it, so it is sequenced here. *)
Definition start_conversation (session_id : string) (uid : json) : M unit :=
  w ← get_world;
  match conversations (manager w) !! session_id with
  | None => raise (HTTPException 404 "Session not found")
  | Some conv_data =>
      try_except
        (let start_session :=
           try_except
             (call (StartSession (conversation conv_data)))
             (λ e, log "error" ("Failed to start session: " +:+ exc_str e) ;;
                   raise e) in
         _ ← get_event_loop;
         start_session ;;
         assign_is_active session_id true ;;
         log "info" ("Started ElevenLabs conversation for session: " +:+ session_id))
        (λ e, log "error" ("Error starting conversation: " +:+ exc_str e) ;;
              raise (HTTPException 500 ("Failed to start conversation: " +:+ exc_str e)))
  end.

Definition end_conversation (session_id : string) : M unit :=
  w ← get_world;
  match conversations (manager w) !! session_id with
  | Some conv_data =>
      try_except
        (call (EndSession (conversation conv_data)) ;;
         assign_is_active session_id false ;;
         modify (set_manager (set_conversations (delete session_id))) ;;
         log "info" ("Ended conversation session: " +:+ session_id))
        (λ e, log "error" ("Error ending conversation: " +:+ exc_str e))
  | None => mret tt
  end.

(** ** The WebSocket endpoint *)

Definition reply (type : string) (key text : string) : json :=
  JObj [("type", JStr type); (key, JStr text)].

Definition handle_websocket_message (session_id : string) (message : json)
    (ws : WebSocket) : M unit :=
  message_type ← lift (dict_get message "type" JNull);
  if eq_str message_type "start" then
    uid ← lift (dict_get message "user_id" JNull);
    try_except
      (start_conversation session_id uid ;;
       send_json ws (reply "conversation_started" "message"
                       "Conversation started! You can now speak."))
      (λ e, send_json ws (reply "error" "message"
                            ("Failed to start conversation: " +:+ exc_str e)))
  else if eq_str message_type "stop" then
    end_conversation session_id ;;
    send_json ws (reply "conversation_stopped" "message" "Conversation stopped.")
  else if eq_str message_type "text" then
    text ← lift (dict_get message "text" (JStr ""));
    log "info" ("Received text input: " +:+ py_str text) ;;
    send_json ws (reply "text_response" "text" ("Echo: " +:+ py_str text))
  else
    send_json ws (reply "error" "message"
                    ("Unknown message type: " +:+ py_str message_type)).

(** What [await websocket.receive()] gives: a dict that may hold the keys
    ["text"] and ["bytes"], or an exception. *)
Inductive Received :=
| Message (text : option string) (data : option bytes)
| ReceiveRaises (e : exn).

(** One pass through the body of [while True]. *)
Definition loop_iteration (session_id : string) (ws : WebSocket) (data : Received)
    : M unit :=
  match data with
  | ReceiveRaises e => raise e
  | Message (Some text) _ =>
      message ← lift (json_loads text);
      handle_websocket_message session_id message ws
  | Message None (Some audio_data) =>
      w ← get_world;
      match conversations (manager w) !! session_id with
      | Some conv_data =>
          queue_audio (audio_interface conv_data) audio_data ;;
          log "debug" ("Received " +:+ pretty (length audio_data)
                       +:+ " bytes of audio from frontend")
      | None => mret tt
      end
  | Message None None => mret tt
  end.

(** [while True] over what the connection delivers; with nothing left to
    receive the coroutine stays suspended in [receive]. *)
Fixpoint main_loop (session_id : string) (ws : WebSocket) (inbox : list Received)
    : M unit :=
  match inbox with
  | [] => awaiting
  | data :: rest =>
      loop_iteration session_id ws data ;;
      main_loop session_id ws rest
  end.

(** The two [except] clauses of the endpoint. *)
Definition on_exception (ws : WebSocket) (e : exn) : M unit :=
  match e with
  | WebSocketDisconnect => log "info" "WebSocket disconnected"
  | _ =>
      log "error" ("WebSocket error: " +:+ exc_str e) ;;
      send_json ws (reply "error" "message" ("Server error: " +:+ exc_str e))
  end.

(** The [finally] clause; [session_id] is the local variable, [None] until
    [create_conversation] has returned. *)
Definition cleanup (session_id : option string) : M unit :=
  if truthy session_id
  then end_conversation (default "" session_id)
  else mret tt.

(** [websocket_conversation]: the [try] block is split where [session_id]
    is assigned, so that [finally] sees the value the variable has. *)
Definition websocket_conversation (ws : WebSocket) (inbox : list Received) : M unit :=
  call (Accept ws) ;;
  created ← attempt (log "info" "New WebSocket connection established" ;;
                     create_conversation ws None);
  match created with
  | inl e => try_finally (on_exception ws e) (cleanup None)
  | inr session_id =>
      try_finally
        (try_except
           (send_json ws
              (JObj [("type", JStr "session_created");
                     ("session_id", JStr session_id);
                     ("message", JStr "Conversation session created. Send 'start' to begin.")]) ;;
            main_loop session_id ws inbox)
           (on_exception ws))
        (cleanup (Some session_id))
  end.

End Relay.

(** ** The rest of the audio interface, the listing and the shutdown *)

Fixpoint zeros (k : nat) : string :=
  match k with
  | O => ""
  | S k' => String "0" (zeros k')
  end.

(** [%0<width>d] *)
Definition zpad (width : nat) (n : N) : string :=
  zeros (width - String.length (pretty n)) +:+ pretty n.

(** [datetime.isoformat()] of a naive datetime: the microseconds are
    printed only when they are not zero. *)
Definition isoformat (t : DateTime) : string :=
  zpad 4 (year t) +:+ "-" +:+ zpad 2 (month t) +:+ "-" +:+ zpad 2 (day t) +:+ "T"
  +:+ zpad 2 (hour t) +:+ ":" +:+ zpad 2 (minute t) +:+ ":" +:+ zpad 2 (second t)
  +:+ (if (microsecond t =? 0)%N then "" else "." +:+ zpad 6 (microsecond t)).

Definition json_of_optional (o : option string) : json :=
  match o with
  | Some s => JStr s
  | None => JNull
  end.

(** One item of the listing. *)
Definition summary (session_id : string) (conv_data : ConvData) : json :=
  JObj [("session_id", JStr session_id);
        ("user_id", json_of_optional (user_id conv_data));
        ("created_at", JStr (isoformat (created_at conv_data)));
        ("is_active", JBool (is_active conv_data))].

(** [GET /conversations].  The registry is a finite map and keeps no
    insertion order: the items come in the order of the map's keys. *)
Definition list_conversations : M json :=
  w ← get_world;
  let items := (λ entry, summary entry.1 entry.2)
                 <$> map_to_list (conversations (manager w)) in
  mret (JObj [("count", JInt (Z.of_nat (length items)));
              ("conversations", JArr items)]).

Section Remaining.
Context {RT : Runtime}.

Definition start_listening (self : N) : M unit :=
  update_obj self (set_is_recording true) ;;
  log "info" "Started WebSocket audio listening".

Definition stop_listening (self : N) : M unit :=
  update_obj self (set_is_recording false) ;;
  log "info" "Stopped WebSocket audio listening".

(** [receive_audio]: [audio_queue.get()] takes the oldest frame and keeps
    the coroutine suspended while the queue is empty. *)
Definition receive_audio (self : N) : M bytes :=
  try_except
    (obj ← read_obj self;
     match audio_queue obj with
     | [] => awaiting
     | audio_data :: rest =>
         update_obj self (set_audio_queue rest) ;;
         mret audio_data
     end)
    (λ e, log "error" ("Error receiving audio from WebSocket: " +:+ exc_str e) ;;
          mret []).

(** [for session_id in session_ids: await end_conversation(session_id)] *)
Fixpoint end_all (session_ids : list string) : M unit :=
  match session_ids with
  | [] => mret tt
  | session_id :: rest => end_conversation session_id ;; end_all rest
  end.

(** The body of [while True] run on [frames], one after the other: the
    part of the loop that lies before a given message. *)
Fixpoint iterations (session_id : string) (ws : WebSocket) (frames : list Received)
    : M unit :=
  match frames with
  | [] => mret tt
  | data :: rest =>
      loop_iteration session_id ws data ;;
      iterations session_id ws rest
  end.

(** [shutdown_event], over the keys the registry has when it starts.  A
    dict hands them out in insertion order, the finite map in the order of
    the keys; what is proved of [end_all] holds for every list of keys. *)
Definition shutdown_event : M unit :=
  log "info" "Shutting down Vesta Live Backend" ;;
  w ← get_world;
  end_all (map_to_list (conversations (manager w))).*1.

End Remaining.

(** The place of a character in a string, the length when it is not there;
    for the base64 alphabet, the value a decoder reads off a character. *)
Fixpoint index_of (c : ascii) (s : string) : N :=
  match s with
  | "" => 0
  | String d rest => if Ascii.eqb c d then 0 else N.succ (index_of c rest)
  end%N.

Definition b64_index (c : ascii) : N := index_of c b64_alphabet.

(** ** Relations between the world before and after a computation *)

(** Whatever the start, [m] leaves a world related to it by [R]. *)
Definition respects (R : World → World → Prop) {A} (m : M A) : Prop :=
  ∀ w, R w (snd (m w)).

(** Every registry entry but the one of [session_id] is as it was. *)
Definition same_elsewhere (session_id : string) (w w' : World) : Prop :=
  ∀ k, k ≠ session_id →
       conversations (manager w') !! k = conversations (manager w) !! k.

(** The answers left are the last ones of the answers there were. *)
Definition script_consumed (w w' : World) : Prop :=
  pending w' `suffix_of` pending w.

(** No call to come raises. *)
Definition calm (w : World) : Prop :=
  Forall (λ a, a = Returns) (pending w).

(** ** A runtime, a configuration and a world to run the program in *)

Definition dq : string := String (ascii_of_nat 34) "".

Definition start_text : string :=
  "{" +:+ dq +:+ "type" +:+ dq +:+ ": " +:+ dq +:+ "start" +:+ dq +:+ "}".

Definition hello_text : string :=
  "{" +:+ dq +:+ "type" +:+ dq +:+ ": " +:+ dq +:+ "hello" +:+ dq +:+ "}".

(** A decoder that agrees with [json.loads] on the texts used below: two
    objects, the empty object, the empty array, and texts that are not JSON. *)
Definition sample_loads (text : string) : exn + json :=
  if String.eqb text start_text then inr (JObj [("type", JStr "start")])
  else if String.eqb text hello_text then inr (JObj [("type", JStr "hello")])
  else if String.eqb text "{}" then inr (JObj [])
  else if String.eqb text "[]" then inr (JArr [])
  else inl (LibraryError "JSONDecodeError" "Expecting value: line 1 column 1 (char 0)").

(** [str] as Starlette defines it for its exceptions; of the containers only
    the empty ones occur below. *)
Definition sample_runtime : Runtime :=
  {| json_loads := sample_loads;
     container_str := λ v, match v with
                           | JArr _ => "[]"
                           | _ => "{}"
                           end;
     framework_str := λ e, match e with
                           | HTTPException code detail => pretty code +:+ ": " +:+ detail
                           | _ => ""
                           end |}.

Definition sample_config : Config :=
  {| ELEVENLABS_API_KEY := Some "sk-test";
     AGENT_ID := Some "agent-1";
     OUTPUT_SAMPLE_RATE_HZ := 24000 |}.

Definition no_agent_config : Config :=
  {| ELEVENLABS_API_KEY := Some "sk-test";
     AGENT_ID := None;
     OUTPUT_SAMPLE_RATE_HZ := 24000 |}.

(** A clock that stays within one second: 2025-03-09 07:05:00, the [n]-th
    reading [n] microseconds in. *)
Definition sample_clock (n : nat) : DateTime :=
  {| year := 2025; month := 3; day := 9; hour := 7; minute := 5; second := 0;
     microsecond := N.of_nat n |}.

(** The server right after start-up, inside its event loop [1]. *)
Definition fresh_world (cfg : Config) (script : list Answer) : World :=
  {| manager := ConversationManager_init cfg;
     heap := ∅; next_ref := 0; trace := []; pending := script;
     clock := sample_clock; ticks := 0; event_loop := inr 1%N |}.

Definition sample_ws : WebSocket := {| ws_conn := 1; ws_id := 140203 |}.

(** A later connection whose object got the address of [sample_ws]. *)
Definition later_ws : WebSocket := {| ws_conn := 2; ws_id := 140203 |}.

Definition engine_error : exn := LibraryError "ConnectionError" "engine unreachable".

Definition sample_sid : string := "session_20250309_070500_140203".

(** The server with one session created for [sample_ws]: the audio
    interface is object [0], the engine handle object [1]; [script] answers
    the calls that follow. *)
Definition created_world (script : list Answer) : World :=
  after (create_conversation sample_config sample_ws None)
        (fresh_world sample_config (Returns :: script)).

(** The registry entry of that session. *)
Definition sample_entry (active : bool) : ConvData :=
  {| conversation := 1; conv_websocket := sample_ws; audio_interface := 0;
     user_id := None; created_at := sample_clock 1; is_active := active |}.

(** The same once the engine has called [start] on the audio interface
    with its input callback [9]. *)
Definition recording_world (script : list Answer) : World :=
  after (start 0 9) (created_world script).

(** The same once a first [start] went through, and once the session has
    been ended. *)
Definition active_world (script : list Answer) : World :=
  after (start_conversation (RT := sample_runtime) sample_sid JNull)
        (created_world (Returns :: script)).

Definition stopped_world : World :=
  after (end_conversation (RT := sample_runtime) sample_sid) (created_world []).

(** The audio interface of that session. *)
Definition sample_interface (recording : bool) (callback : option N)
    : WebSocketAudioInterface :=
  {| websocket := sample_ws; is_recording := recording; audio_queue := [];
     input_callback := callback; loop := Some 1%N |}.

Definition timeout_error : exn := LibraryError "TimeoutError" "".

(** Another connection, with its own address. *)
Definition other_ws : WebSocket := {| ws_conn := 3; ws_id := 140999 |}.

(** The server with the sessions of [sample_ws] and of [other_ws]. *)
Definition two_sessions_world (script : list Answer) : World :=
  after (create_conversation sample_config other_ws None)
        (created_world (Returns :: script)).

(** A connection that sends [start] and then goes away. *)
Definition short_visit : list Received :=
  [Message (Some start_text) None; ReceiveRaises WebSocketDisconnect].

(** An audio interface made outside any event loop, so that it holds no
    loop; [current] is what [asyncio.get_event_loop()] does for the caller. *)
Definition loopless_world (current : exn + N) (script : list Answer) : World :=
  {| manager := ConversationManager_init sample_config;
     heap := {[ 0%N := {| websocket := sample_ws; is_recording := false;
                          audio_queue := []; input_callback := None; loop := None |} ]};
     next_ref := 1; trace := []; pending := script;
     clock := sample_clock; ticks := 0; event_loop := current |}.

(** The first message of the endpoint to its client. *)
Definition session_created_message (session_id : string) : json :=
  JObj [("type", JStr "session_created");
        ("session_id", JStr session_id);
        ("message", JStr "Conversation session created. Send 'start' to begin.")].

(** The server once the endpoint has accepted [sample_ws], created its
    session and told the client, about to enter the loop. *)
Definition accepted_world (script : list Answer) : World :=
  after (call (Accept sample_ws) ;;
         log "info" "New WebSocket connection established" ;;
         create_conversation sample_config sample_ws None)
        (fresh_world sample_config script).

Definition serving_world (script : list Answer) : World :=
  after (send_json sample_ws (session_created_message sample_sid)) (accepted_world script).

Definition closed_error : exn := RuntimeError "closed".

Definition decode_error : exn :=
  LibraryError "JSONDecodeError" "Expecting value: line 1 column 1 (char 0)".

(** ** Running the program *)

Ltac msimpl :=
  repeat (progress (
    unfold try_except, try_finally, attempt, emit, log, send_json,
      datetime_now, get_event_loop, new_ref, read_obj, update_obj, assign_is_active,
      get_world, modify, raise, awaiting, lift, mbind, M_bind, mret, M_ret;
    cbn [manager heap next_ref trace pending clock ticks event_loop
         set_manager set_heap set_next_ref set_trace set_pending set_ticks
         conversations elevenlabs_client set_conversations fst snd])).

Lemma call_eq (ev : Event) (w : World) : call ev w = (answered w, called ev w).
Proof.
  destruct w as [m h n t p c k l]; unfold call, answered, called, raised_mark.
  msimpl; destruct p as [|[|e] rest]; msimpl; cbn [tail]; try reflexivity.
  by rewrite <- app_assoc.
Qed.

Lemma answered_cases (w : World) :
  (answered w = Ok tt ∧ raised_mark w = []) ∨
  (∃ e rest, pending w = Raises e :: rest ∧ answered w = Raise e ∧ raised_mark w = [Raised e]).
Proof.
  unfold answered, raised_mark; destruct (pending w) as [|[|e] rest];
    [by left | by left | right; by exists e, rest].
Qed.

Example b64_sample : b64encode [x68; x69; x21; x0a] = "aGkhCg==".
Proof. reflexivity. Qed.

Example strftime_sample : strftime (sample_clock 7) = "20250309_070500".
Proof. vm_compute. reflexivity. Qed.

Example create_sample :
  outcome (create_conversation sample_config sample_ws None)
          (fresh_world sample_config [])
  = Ok "session_20250309_070500_140203".
Proof. vm_compute. reflexivity. Qed.

Section Properties.
Context {RT : Runtime}.
Variable config : Config.

(** *** The receive loop *)

Lemma main_loop_continues sid ws data rest w w' :
  loop_iteration sid ws data w = (Ok tt, w') →
  main_loop sid ws (data :: rest) w = main_loop sid ws rest w'.
Proof. intros Hit. cbn [main_loop]. unfold mbind, M_bind. by rewrite Hit. Qed.

Lemma main_loop_exits sid ws data rest w w' e :
  loop_iteration sid ws data w = (Raise e, w') →
  main_loop sid ws (data :: rest) w = (Raise e, w').
Proof. intros Hit. cbn [main_loop]. unfold mbind, M_bind. by rewrite Hit. Qed.

(** C10: a binary frame that arrives while the connection's session is not
    registered is dropped: the iteration returns normally with the whole
    world (registry, audio interfaces and their queues, trace of calls and
    sends) exactly as before, and the loop goes on with what comes next. *)
Theorem audio_frame_without_session sid ws audio_data rest w :
  conversations (manager w) !! sid = None →
  loop_iteration sid ws (Message None (Some audio_data)) w = (Ok tt, w)
  ∧ main_loop sid ws (Message None (Some audio_data) :: rest) w
    = main_loop sid ws rest w.
Proof.
  intros Hnone.
  assert (loop_iteration sid ws (Message None (Some audio_data)) w = (Ok tt, w)) as Hit.
  { unfold loop_iteration. msimpl. by rewrite Hnone. }
  split; [exact Hit | by apply main_loop_continues].
Qed.

(** *** end_conversation *)

Lemma end_conversation_absent sid w :
  conversations (manager w) !! sid = None →
  end_conversation sid w = (Ok tt, w).
Proof. intros Hnone. unfold end_conversation. msimpl. by rewrite Hnone. Qed.

Lemma end_conversation_engine_raises sid c e rest w :
  conversations (manager w) !! sid = Some c →
  pending w = Raises e :: rest →
  end_conversation sid w
  = (Ok tt,
     set_trace (trace w ++ [EndSession (conversation c); Raised e;
                            Log "error" ("Error ending conversation: " +:+ exc_str e)])
       (set_pending rest w)).
Proof.
  intros Hc Hp. unfold end_conversation. msimpl. rewrite Hc. msimpl.
  rewrite call_eq. unfold answered, called, raised_mark. rewrite Hp. msimpl.
  destruct w; cbn in *. by rewrite <- app_assoc.
Qed.

Lemma end_conversation_engine_returns sid c w :
  conversations (manager w) !! sid = Some c →
  answered w = Ok tt →
  end_conversation sid w
  = (Ok tt,
     set_trace (trace w ++ [EndSession (conversation c);
                            Log "info" ("Ended conversation session: " +:+ sid)])
       (set_pending (tail (pending w))
          (set_manager (set_conversations (λ m, delete sid (alter (set_is_active false) sid m))) w))).
Proof.
  intros Hc Ha. unfold end_conversation. msimpl. rewrite Hc. msimpl.
  rewrite call_eq, Ha.
  assert (raised_mark w = []) as Hm.
  { unfold answered in Ha; unfold raised_mark.
    by destruct (pending w) as [|[|e] rest]. }
  unfold called. rewrite Hm. msimpl.
  destruct w; cbn in *. by rewrite <- app_assoc.
Qed.

Lemma end_conversation_returns sid w :
  ∃ w1, end_conversation sid w = (Ok tt, w1).
Proof.
  destruct (conversations (manager w) !! sid) as [c|] eqn:Hc.
  - destruct (answered_cases w) as [[Ha _]|(e & rest & Hp & _ & _)].
    + eexists. by apply end_conversation_engine_returns.
    + eexists. by eapply end_conversation_engine_raises.
  - exists w. by apply end_conversation_absent.
Qed.

(** C6: [end_conversation] returns normally whatever the identifier and
    whatever the engine does; when the engine's [end_session] raises, the
    exception is logged as an error; and calling it again for an identifier
    that is no longer registered does nothing at all. *)
Theorem end_conversation_never_raises sid w :
  ∃ w1, end_conversation sid w = (Ok tt, w1)
    ∧ (∀ c e rest,
         conversations (manager w) !! sid = Some c →
         pending w = Raises e :: rest →
         trace w1 = trace w ++ [EndSession (conversation c); Raised e;
                                Log "error" ("Error ending conversation: " +:+ exc_str e)])
    ∧ (conversations (manager w1) !! sid = None →
       end_conversation sid w1 = (Ok tt, w1)).
Proof.
  destruct (conversations (manager w) !! sid) as [c|] eqn:Hc.
  - destruct (answered_cases w) as [[Ha _]|(e & rest & Hp & _ & _)].
    + eexists; split; [by apply end_conversation_engine_returns|].
      split; [|apply end_conversation_absent].
      intros c' e rest _ Hp. unfold answered in Ha. by rewrite Hp in Ha.
    + eexists; split; [by eapply end_conversation_engine_raises|].
      split; [|apply end_conversation_absent].
      intros c' e' rest' Hc' Hp'. rewrite Hp in Hp'. by simplify_eq.
  - exists w; split; [by apply end_conversation_absent|].
    split; [|apply end_conversation_absent].
    by intros c e rest ?.
Qed.

(** *** create_conversation *)

(** C8: with the API key or the agent identifier missing, creation raises
    the configuration error (HTTP 500, not properly configured) and the only
    thing that happened is one reading of the clock: the registry, the audio
    interfaces, the trace and the script are as they were. *)
Theorem create_conversation_unconfigured ws uid w :
  elevenlabs_client (manager w) = elevenlabs_client (ConversationManager_init config) →
  truthy (ELEVENLABS_API_KEY config) = false ∨ truthy (AGENT_ID config) = false →
  ∃ w', create_conversation config ws uid w
        = (Raise (HTTPException 500 "ElevenLabs not properly configured"), w')
    ∧ manager w' = manager w ∧ heap w' = heap w ∧ next_ref w' = next_ref w
    ∧ trace w' = trace w ∧ pending w' = pending w.
Proof.
  intros Hclient Hmissing.
  exists (set_ticks (S (ticks w)) w). split; [|done].
  unfold create_conversation. msimpl. rewrite Hclient.
  unfold ConversationManager_init. msimpl.
  destruct Hmissing as [Hkey|Hagent].
  - rewrite Hkey. by rewrite bool_decide_eq_false_2 by (by intros [? ?]).
  - rewrite Hagent. by rewrite orb_true_r.
Qed.

(** *** The audio interface *)

(** C4: [queue_audio] always appends the frame to the queue and returns
    normally.  The input callback is called, once, exactly when a callback
    is registered and the recording flag is set; otherwise no call is made.
    When the callback raises, the exception is logged and not passed on. *)
Theorem queue_audio_spec self audio_data obj w :
  heap w !! self = Some obj →
  ∃ w', queue_audio self audio_data w = (Ok tt, w')
    ∧ audio_queue <$> heap w' !! self = Some (audio_queue obj ++ [audio_data])
    ∧ heap w' = <[self := {| websocket := websocket obj;
                             is_recording := is_recording obj;
                             audio_queue := audio_queue obj ++ [audio_data];
                             input_callback := input_callback obj;
                             loop := loop obj |}]> (heap w)
    ∧ manager w' = manager w
    ∧ trace w' = trace w ++
        match input_callback obj, is_recording obj with
        | Some callback, true =>
            InputCallback callback audio_data ::
            match pending w with
            | Raises e :: _ =>
                [Raised e; Log "error" ("Error in input callback: " +:+ exc_str e)]
            | _ => []
            end
        | _, _ => []
        end.
Proof.
  intros Hobj.
  assert (alter (set_audio_queue (audio_queue obj ++ [audio_data])) self (heap w)
          = <[self := {| websocket := websocket obj;
                         is_recording := is_recording obj;
                         audio_queue := audio_queue obj ++ [audio_data];
                         input_callback := input_callback obj;
                         loop := loop obj |}]> (heap w)) as Hheap.
  { apply map_eq; intros i. destruct (decide (self = i)) as [->|Hne].
    - by rewrite lookup_alter_eq, lookup_insert_eq, Hobj.
    - by rewrite lookup_alter_ne, lookup_insert_ne. }
  unfold queue_audio. msimpl. rewrite Hobj. msimpl.
  destruct (input_callback obj) as [callback|], (is_recording obj); msimpl;
    try (eexists; split; [reflexivity|]; msimpl;
         rewrite ?app_nil_r, ?Hheap, ?lookup_insert_eq; done).
  rewrite call_eq. unfold answered, called, raised_mark. msimpl.
  destruct (pending w) as [|[|e] rest]; msimpl;
    (eexists; split; [reflexivity|]; msimpl; rewrite Hheap, lookup_insert_eq;
     split_and!; try done; by rewrite <- ?app_assoc).
Qed.

(** The interface of a session created inside an event loop holds that
    loop and the connection. *)
Lemma create_conversation_interface ws uid l w s w' :
  event_loop w = inr l →
  create_conversation config ws uid w = (Ok s, w') →
  ∃ c, conversations (manager w') !! s = Some c
    ∧ heap w' !! audio_interface c
      = Some {| websocket := ws; is_recording := false; audio_queue := [];
                input_callback := None; loop := Some l |}.
Proof.
  intros Hl.
  unfold create_conversation, WebSocketAudioInterface_init, new_conversation. msimpl.
  destruct (_ || _); msimpl; [done|]. rewrite Hl. msimpl.
  rewrite call_eq; unfold answered, called, raised_mark; msimpl.
  destruct (pending w) as [|[|e] rest]; msimpl; try done.
  all: intros ?; simplify_eq; msimpl; eexists;
    (split; [by rewrite lookup_insert_eq|]);
    cbn [audio_interface]; by rewrite lookup_insert_eq.
Qed.

(** Nothing but [output] writes the loop an interface holds, and [output]
    only when none is held. *)
Lemma queue_audio_keeps_loop self audio_data obj w :
  heap w !! self = Some obj →
  loop <$> heap (snd (queue_audio self audio_data w)) !! self = Some (loop obj).
Proof.
  intros Hobj. unfold queue_audio. msimpl. rewrite Hobj. msimpl.
  assert (loop <$> alter (set_audio_queue (audio_queue obj ++ [audio_data])) self (heap w)
                   !! self = Some (loop obj)) as Hkept.
  { by rewrite lookup_alter_eq, Hobj. }
  destruct (input_callback obj) as [callback|], (is_recording obj); msimpl; try done.
  rewrite call_eq. unfold answered, called, raised_mark. msimpl.
  by destruct (pending w) as [|[|e] rest]; msimpl.
Qed.

(** C7: [output] never raises.  For an interface that holds the loop of its
    connection, the frame goes out as an [audio] message (base64 payload,
    encoding pcm16, the configured sample rate) whose send is scheduled on
    that loop; when the scheduling call returns, the result is awaited with
    a timeout of 2 seconds, and nothing the wait raises is passed on. *)
Theorem output_spec self audio_data w :
  ∃ w', output config self audio_data w = (Ok tt, w')
    ∧ ∀ obj l,
        heap w !! self = Some obj →
        loop obj = Some l →
        heap w' = heap w ∧
        trace w' = trace w ++
          RunCoroutineThreadsafe (websocket obj)
            (JObj [("type", JStr "audio");
                   ("audio_data", JStr (b64encode audio_data));
                   ("encoding", JStr "pcm16");
                   ("sample_rate_hz", JInt (OUTPUT_SAMPLE_RATE_HZ config))]) l ::
          match pending w with
          | Raises e :: _ =>
              [Raised e; Log "error" ("Error forwarding audio to WebSocket: " +:+ exc_str e)]
          | _ => [FutureResult 2] ++ raised_mark (set_pending (tail (pending w)) w)
          end.
Proof.
  unfold output. msimpl.
  destruct (heap w !! self) as [obj|] eqn:Hobj; msimpl.
  2: { eexists; split; [reflexivity|]. by intros obj l ?. }
  destruct (loop obj) as [l|] eqn:Hloop; msimpl.
  - rewrite call_eq. unfold answered, called, raised_mark. msimpl.
    destruct (pending w) as [|[|e] rest] eqn:Hp; msimpl; cbn [tail].
    + rewrite call_eq. unfold answered, called, raised_mark. msimpl.
      eexists; split; [reflexivity|]. intros obj' l' ? ?; simplify_eq.
      msimpl. by rewrite <- app_assoc.
    + rewrite call_eq. unfold answered, called, raised_mark. msimpl.
      destruct rest as [|[|e] rest']; msimpl;
        (eexists; split; [reflexivity|]; intros obj' l' ? ?; simplify_eq;
         msimpl; by rewrite <- app_assoc).
    + eexists; split; [reflexivity|]. intros obj' l' ? ?; simplify_eq.
      msimpl. by rewrite <- !app_assoc.
  - destruct (event_loop w) as [e|l]; msimpl.
    { eexists; split; [reflexivity|]. by intros obj' l' ? ?; simplify_eq. }
    rewrite call_eq. unfold answered, called, raised_mark. msimpl.
    destruct (pending w) as [|[|e] rest]; msimpl; cbn [tail];
      rewrite ?call_eq; unfold answered, called, raised_mark; msimpl.
    + eexists; split; [reflexivity|]. by intros obj' l' ? ?; simplify_eq.
    + destruct rest as [|[|e] rest']; msimpl;
        (eexists; split; [reflexivity|]; by intros obj' l' ? ?; simplify_eq).
    + eexists; split; [reflexivity|]. by intros obj' l' ? ?; simplify_eq.
Qed.

(** *** start_conversation *)

Lemma start_conversation_absent sid uid w :
  conversations (manager w) !! sid = None →
  start_conversation sid uid w = (Raise (HTTPException 404 "Session not found"), w).
Proof. intros Hnone. unfold start_conversation. msimpl. by rewrite Hnone. Qed.

Lemma start_conversation_registered sid uid c l w :
  conversations (manager w) !! sid = Some c →
  event_loop w = inr l →
  start_conversation sid uid w
  = match pending w with
    | Raises e :: rest =>
        (Raise (HTTPException 500 ("Failed to start conversation: " +:+ exc_str e)),
         set_trace (trace w ++ [StartSession (conversation c); Raised e;
                                Log "error" ("Failed to start session: " +:+ exc_str e);
                                Log "error" ("Error starting conversation: " +:+ exc_str e)])
           (set_pending rest w))
    | _ =>
        (Ok tt,
         set_trace (trace w ++ [StartSession (conversation c);
                                Log "info" ("Started ElevenLabs conversation for session: " +:+ sid)])
           (set_pending (tail (pending w))
              (set_manager (set_conversations (alter (set_is_active true) sid)) w)))
    end.
Proof.
  intros Hc Hl. unfold start_conversation. msimpl. rewrite Hc. msimpl. rewrite Hl. msimpl.
  rewrite call_eq. unfold answered, called, raised_mark.
  destruct w as [m h n t p ck k el]; cbn in Hc, Hl |- *.
  destruct p as [|[|e] rest]; msimpl; cbn [tail]; by rewrite <- ?app_assoc.
Qed.

(** C1 as the code has it: a second [start] on a session that is already
    active is not rejected.  The engine's [start_session] is called again on
    the handle the session already has, and no object is created.  When the
    call returns, [start_conversation] succeeds; when it raises,
    [start_conversation] fails with HTTP 500.  Either way the registry is as
    it was, with the session still marked active. *)
Theorem start_conversation_when_active sid uid c l w :
  conversations (manager w) !! sid = Some c →
  is_active c = true →
  event_loop w = inr l →
  ∃ w' more,
    start_conversation sid uid w
    = (match pending w with
       | Raises e :: _ =>
           Raise (HTTPException 500 ("Failed to start conversation: " +:+ exc_str e))
       | _ => Ok tt
       end, w')
    ∧ trace w' = trace w ++ StartSession (conversation c) :: more
    ∧ conversations (manager w') = conversations (manager w)
    ∧ next_ref w' = next_ref w ∧ heap w' = heap w.
Proof.
  intros Hc Hact Hl. rewrite (start_conversation_registered sid uid c l w Hc Hl).
  destruct (pending w) as [|[|e] rest]; eexists _, _; (split; [reflexivity|]); msimpl;
    split_and!; try done.
  all: apply alter_id; intros c' Hc'; rewrite Hc in Hc'; simplify_eq;
    destruct c'; cbn in *; by subst.
Qed.

(** *** handle_websocket_message *)

Lemma send_json_eq ws payload w :
  send_json ws payload w = (answered w, called (SendJson ws payload) w).
Proof. unfold send_json. apply call_eq. Qed.

(** A send either returns, or its exception is the last thing in the trace. *)
Lemma send_outcome ws payload w :
  answered w = Ok tt ∨
  ∃ t e, answered w = Raise e
         ∧ trace (called (SendJson ws payload) w) = t ++ [SendJson ws payload; Raised e].
Proof.
  destruct (answered_cases w) as [[Ha _]|(e & rest & _ & Ha & Hm)]; [by left|right].
  exists (trace w), e. split; [done|]. unfold called. msimpl. by rewrite Hm.
Qed.

Lemma send_json_last ws payload w :
  ∃ r w', send_json ws payload w = (r, w') ∧ (r = Ok tt ∨ send_failed ws r w').
Proof.
  rewrite send_json_eq. eexists _, _; split; [reflexivity|].
  destruct (send_outcome ws payload w) as [?|(t & e & ? & ?)]; [by left|right].
  by exists t, payload, e.
Qed.

Lemma handle_message_outcome sid fields ws w :
  ∃ r w', handle_websocket_message sid (JObj fields) ws w = (r, w')
    ∧ (r = Ok tt ∨ send_failed ws r w').
Proof.
  unfold handle_websocket_message, dict_get. msimpl.
  destruct (eq_str _ "start"); [|destruct (eq_str _ "stop"); [|destruct (eq_str _ "text")]];
    msimpl.
  - (* start *)
    destruct (conversations (manager w) !! sid) as [c|] eqn:Hc.
    + destruct (event_loop w) as [e|l] eqn:Hl.
      * unfold start_conversation. msimpl. rewrite Hc. msimpl. rewrite Hl. msimpl.
        apply send_json_last.
      * rewrite (start_conversation_registered sid _ c l w Hc Hl).
        destruct (pending w) as [|[|e] rest]; msimpl; try apply send_json_last.
        all: match goal with |- context [call (SendJson ?s ?p) ?w0] =>
               destruct (send_json_last s p w0) as (r & w1 & Hs & Hr);
               unfold send_json in Hs; rewrite Hs end.
        all: destruct r as [[]|e|]; msimpl;
          [ eexists _, _; split; [reflexivity|by left]
          | apply send_json_last
          | exfalso; by destruct Hr as [?|(?&?&?&?&?)] ].
    + rewrite start_conversation_absent by done. msimpl. apply send_json_last.
  - (* stop *)
    destruct (end_conversation_returns sid w) as (w1 & ->). msimpl.
    apply send_json_last.
  - (* text *)
    apply send_json_last.
  - apply send_json_last.
Qed.

Lemma handle_unknown_type sid fields ws w :
  let ty := default JNull (assoc_get "type" fields) in
  eq_str ty "start" = false → eq_str ty "stop" = false → eq_str ty "text" = false →
  handle_websocket_message sid (JObj fields) ws w
  = (answered w,
     called (SendJson ws (JObj [("type", JStr "error");
                                ("message", JStr ("Unknown message type: " +:+ py_str ty))])) w).
Proof.
  intros ty H1 H2 H3. unfold handle_websocket_message, dict_get. msimpl.
  fold ty. rewrite H1, H2, H3. apply call_eq.
Qed.

Lemma handle_start_absent sid fields ws w :
  assoc_get "type" fields = Some (JStr "start") →
  conversations (manager w) !! sid = None →
  handle_websocket_message sid (JObj fields) ws w
  = (answered w,
     called (SendJson ws (JObj [("type", JStr "error");
                                ("message", JStr ("Failed to start conversation: " +:+
                                   exc_str (HTTPException 404 "Session not found")))])) w).
Proof.
  intros Hty Hnone. unfold handle_websocket_message, dict_get. msimpl.
  rewrite Hty. cbn [default from_option id eq_str String.eqb Ascii.eqb Bool.eqb]. msimpl.
  rewrite start_conversation_absent by done. msimpl. apply call_eq.
Qed.

Lemma loop_iteration_text sid ws text other message w :
  json_loads text = inr message →
  loop_iteration sid ws (Message (Some text) other) w
  = handle_websocket_message sid message ws w.
Proof. intros Hd. unfold loop_iteration. msimpl. by rewrite Hd. Qed.

(** C9: a [start] message for a session that is not registered gets the
    error reply (failed to start, session not found); the registry and the
    audio interfaces are untouched; and, the reply once sent, the loop goes
    on to the next message. *)
Theorem start_without_session sid ws text other fields rest w :
  json_loads text = inr (JObj fields) →
  assoc_get "type" fields = Some (JStr "start") →
  conversations (manager w) !! sid = None →
  ∃ w', loop_iteration sid ws (Message (Some text) other) w = (answered w, w')
    ∧ trace w' = trace w ++
        SendJson ws
          (JObj [("type", JStr "error");
                 ("message", JStr ("Failed to start conversation: " +:+
                                   exc_str (HTTPException 404 "Session not found")))])
        :: raised_mark w
    ∧ manager w' = manager w ∧ heap w' = heap w
    ∧ (answered w = Ok tt →
       main_loop sid ws (Message (Some text) other :: rest) w = main_loop sid ws rest w').
Proof.
  intros Hd Hty Hnone. eexists. split.
  { rewrite (loop_iteration_text _ _ _ _ _ _ Hd). by apply handle_start_absent. }
  split_and!; try done.
  intros Ha. apply main_loop_continues.
  rewrite (loop_iteration_text _ _ _ _ _ _ Hd), <- Ha. by apply handle_start_absent.
Qed.

Lemma text_frame_in_loop sid ws text other rest w :
  (∀ fields, json_loads text = inr (JObj fields) →
     ∃ r w', loop_iteration sid ws (Message (Some text) other) w = (r, w')
       ∧ (r = Ok tt ∨ send_failed ws r w')
       ∧ (r = Ok tt →
          main_loop sid ws (Message (Some text) other :: rest) w = main_loop sid ws rest w')
       ∧ (∀ ty, ty = default JNull (assoc_get "type" fields) →
            eq_str ty "start" = false → eq_str ty "stop" = false →
            eq_str ty "text" = false →
            r = answered w
            ∧ trace w' = trace w ++
                SendJson ws (JObj [("type", JStr "error");
                                   ("message", JStr ("Unknown message type: " +:+ py_str ty))])
                :: raised_mark w
            ∧ manager w' = manager w ∧ heap w' = heap w))
  ∧ (∀ e, json_loads text = inl e →
       main_loop sid ws (Message (Some text) other :: rest) w = (Raise e, w))
  ∧ (∀ v, json_loads text = inr v → (∀ fields, v ≠ JObj fields) →
       main_loop sid ws (Message (Some text) other :: rest) w
       = (Raise (AttributeError ("'" +:+ type_name v +:+ "' object has no attribute 'get'")),
          w)).
Proof.
  split_and!.
  - intros fields Hd.
    destruct (handle_message_outcome sid fields ws w) as (r & w' & Hh & Hr).
    exists r, w'. rewrite (loop_iteration_text _ _ _ _ _ _ Hd).
    split_and!; [done|done|..].
    + intros ->. apply main_loop_continues.
      by rewrite (loop_iteration_text _ _ _ _ _ _ Hd).
    + intros ty -> H1 H2 H3.
      rewrite (handle_unknown_type sid fields ws w H1 H2 H3) in Hh.
      by simplify_eq.
  - intros e Hd. apply main_loop_exits. unfold loop_iteration. msimpl. by rewrite Hd.
  - intros v Hd Hv. apply main_loop_exits.
    rewrite (loop_iteration_text _ _ _ _ _ _ Hd).
    unfold handle_websocket_message, dict_get. msimpl.
    destruct v; try reflexivity. by destruct (Hv fields).
Qed.

(** *** Session identifiers *)

Lemma append_nil_l s : "" +:+ s = s.
Proof. reflexivity. Qed.

Lemma append_cons c a b : String c a +:+ b = String c (a +:+ b).
Proof. reflexivity. Qed.

Lemma no_underscore_append a b : ¬ no_underscore (a +:+ "_" +:+ b).
Proof.
  induction a as [|c a IH]; rewrite ?append_cons, ?append_nil_l;
    cbn [no_underscore]; intros [? ?]; [done|by apply IH].
Qed.

Lemma pretty_N_char_no_underscore x : pretty_N_char x ≠ "_"%char.
Proof. unfold pretty_N_char. by repeat case_match. Qed.

Lemma pretty_N_go_no_underscore x s :
  no_underscore s → no_underscore (pretty_N_go x s).
Proof.
  revert s. induction (N.lt_wf_0 x) as [x _ IH]; intros s Hs.
  assert (x = 0 ∨ 0 < x)%N as [->|Hpos] by lia.
  - by rewrite pretty_N_go_0.
  - rewrite pretty_N_go_step by done. apply IH; [by apply N.div_lt|].
    split; [apply pretty_N_char_no_underscore|done].
Qed.

Lemma pretty_N_no_underscore (n : N) : no_underscore (pretty n).
Proof.
  unfold pretty, pretty_N. case_decide; [by cbn|].
  by apply pretty_N_go_no_underscore.
Qed.

(** What follows the last underscore determines the split. *)
Lemma split_at_last_underscore u v x y :
  no_underscore x → no_underscore y →
  u +:+ "_" +:+ x = v +:+ "_" +:+ y → u = v ∧ x = y.
Proof.
  intros Hx Hy. revert v.
  induction u as [|c u IH]; intros [|d v] Heq; rewrite ?append_cons, ?append_nil_l in Heq.
  - by simplify_eq.
  - injection Heq as <- ->. destruct (no_underscore_append v y Hx).
  - injection Heq as -> <-. destruct (no_underscore_append u x Hy).
  - injection Heq as -> Heq. by destruct (IH v Heq) as [-> ->].
Qed.

Lemma string_length_append a b :
  String.length (a +:+ b) = String.length a + String.length b.
Proof.
  induction a as [|c a IH]; rewrite ?append_cons, ?append_nil_l;
    cbn [String.length]; [done|by rewrite IH].
Qed.

Lemma split_before_fixed_width a b s t :
  String.length s = String.length t →
  a +:+ s = b +:+ t → a = b ∧ s = t.
Proof.
  intros Hlen. revert b.
  induction a as [|c a IH]; intros [|d b] Heq; rewrite ?append_cons, ?append_nil_l in Heq.
  - done.
  - subst s. cbn [String.length] in Hlen. rewrite string_length_append in Hlen. lia.
  - subst t. cbn [String.length] in Hlen. rewrite string_length_append in Hlen. lia.
  - injection Heq as -> Heq. by destruct (IH b Heq) as [-> ->].
Qed.

Lemma two_digits_inj (n n' : N) :
  (n < 100)%N → (n' < 100)%N →
  pretty_N_char (n `div` 10) = pretty_N_char (n' `div` 10) →
  pretty_N_char (n `mod` 10) = pretty_N_char (n' `mod` 10) →
  n = n'.
Proof.
  intros Hn Hn' Hd Hm.
  apply pretty_N_char_inj in Hd;
    [|by apply N.Div0.div_lt_upper_bound..].
  apply pretty_N_char_inj in Hm; [|by apply N.mod_lt..].
  rewrite (N.div_mod n 10), (N.div_mod n' 10) by done. lia.
Qed.

Lemma strftime_inj t1 t2 :
  valid_datetime t1 → valid_datetime t2 →
  strftime t1 = strftime t2 → to_second t1 = to_second t2.
Proof.
  intros (Hy1 & Hm1 & Hd1 & HH1 & HM1 & HS1 & _) (Hy2 & Hm2 & Hd2 & HH2 & HM2 & HS2 & _).
  unfold strftime, pad2. rewrite ?append_cons, ?append_nil_l. intros Heq.
  apply split_before_fixed_width in Heq as [Hyear Hrest]; [|done].
  apply (inj pretty) in Hyear. simplify_eq.
  unfold to_second. f_equal; [done|apply two_digits_inj; (done || lia)..].
Qed.

Lemma session_id_of_inj t1 t2 ws1 ws2 :
  valid_datetime t1 → valid_datetime t2 →
  session_id_of t1 ws1 = session_id_of t2 ws2 →
  to_second t1 = to_second t2 ∧ ws_id ws1 = ws_id ws2.
Proof.
  intros Hv1 Hv2. unfold session_id_of. rewrite ?append_cons, ?append_nil_l. intros Heq.
  simplify_eq.
  match goal with H : _ +:+ _ = _ |- _ =>
    apply split_at_last_underscore in H as [Ht Hid];
      [|apply pretty_N_no_underscore..] end.
  split; [by apply strftime_inj|by apply (inj pretty)].
Qed.

Lemma session_id_of_to_second t ws :
  session_id_of t ws = session_id_of (to_second t) ws.
Proof. done. Qed.

Lemma create_conversation_returns ws uid w s w' :
  create_conversation config ws uid w = (Ok s, w') →
  s = session_id_of (clock w (ticks w)) ws
  ∧ is_Some (conversations (manager w') !! s).
Proof.
  unfold create_conversation, WebSocketAudioInterface_init, new_conversation. msimpl.
  destruct (_ || _); msimpl; [done|].
  destruct (event_loop w) as [[]|l]; msimpl; try done.
  all: rewrite call_eq; unfold answered, called, raised_mark; msimpl.
  all: destruct (pending w) as [|[|e] rest]; msimpl; try done.
  all: intros ?; simplify_eq; msimpl;
    (split; [done|by rewrite lookup_insert_eq]).
Qed.

(** C5 as the code has it: the identifier is made of the clock reading cut
    to the second and of [id()] of the connection object, and of nothing
    else.  Two successful creations return the same identifier exactly when
    they fall in the same second and the two connection objects have the
    same [id()]; otherwise the identifiers differ. *)
Theorem create_conversation_same_id ws1 ws2 uid1 uid2 w1 w2 w1' w2' s1 s2 :
  create_conversation config ws1 uid1 w1 = (Ok s1, w1') →
  create_conversation config ws2 uid2 w2 = (Ok s2, w2') →
  valid_datetime (clock w1 (ticks w1)) →
  valid_datetime (clock w2 (ticks w2)) →
  s1 = s2 ↔
  to_second (clock w1 (ticks w1)) = to_second (clock w2 (ticks w2))
  ∧ ws_id ws1 = ws_id ws2.
Proof.
  intros [-> _]%create_conversation_returns [-> _]%create_conversation_returns Hv1 Hv2.
  split; [by apply session_id_of_inj|].
  intros [Ht Hid].
  rewrite (session_id_of_to_second (clock w1 _)), (session_id_of_to_second (clock w2 _)), Ht.
  unfold session_id_of. by rewrite Hid.
Qed.

End Properties.

(** ** The program on concrete inputs *)

(** C10 on a connection whose session is gone. *)
Lemma audio_frame_without_session_witness :
  loop_iteration (RT := sample_runtime) "session_20250309_070500_140203" sample_ws
    (Message None (Some [x00; x01])) (fresh_world sample_config [])
  = (Ok tt, fresh_world sample_config [])
  ∧ main_loop (RT := sample_runtime) "session_20250309_070500_140203" sample_ws
      [Message None (Some [x00; x01]); Message None None] (fresh_world sample_config [])
    = main_loop (RT := sample_runtime) "session_20250309_070500_140203" sample_ws
        [Message None None] (fresh_world sample_config []).
Proof. apply audio_frame_without_session. reflexivity. Defined.

(** C6 on a registered session whose engine refuses to end, and on the same
    identifier once a first call has removed it. *)
Lemma end_conversation_never_raises_witness :
  (∃ w1, end_conversation (RT := sample_runtime) sample_sid (created_world [Raises engine_error])
         = (Ok tt, w1)
     ∧ trace w1 = trace (created_world [Raises engine_error]) ++
         [EndSession 1; Raised engine_error;
          Log "error" "Error ending conversation: engine unreachable"])
  ∧ (∃ w1, end_conversation (RT := sample_runtime) sample_sid (created_world []) = (Ok tt, w1)
       ∧ end_conversation (RT := sample_runtime) sample_sid w1 = (Ok tt, w1)).
Proof.
  split.
  - destruct (end_conversation_never_raises (RT := sample_runtime) sample_sid
                (created_world [Raises engine_error])) as (w1 & Hend & Hlog & _).
    exists w1. split; [exact Hend|].
    apply (Hlog (sample_entry false) engine_error []); vm_compute; reflexivity.
  - destruct (end_conversation_never_raises (RT := sample_runtime) sample_sid
                (created_world [])) as (w1 & Hend & _ & Hagain).
    exists w1. split; [exact Hend|]. apply Hagain.
    assert (w1 = after (end_conversation (RT := sample_runtime) sample_sid) (created_world []))
      as -> by (unfold after; by rewrite Hend).
    vm_compute. reflexivity.
Defined.

(** C3, where the code parts from it: the engine's [end_session] raises,
    [end_conversation] returns normally and the session is still registered;
    the same once the endpoint has run to its end on a disconnect (the
    script answers accept, the engine constructor, the first send, and then
    [end_session]). *)
Theorem engine_failure_leaves_session_registered :
  let ending := end_conversation (RT := sample_runtime) sample_sid in
  let endpoint :=
    websocket_conversation (RT := sample_runtime) sample_config sample_ws
      [ReceiveRaises WebSocketDisconnect] in
  let script := [Returns; Returns; Returns; Raises engine_error] in
  outcome ending (created_world [Raises engine_error]) = Ok tt
  ∧ conversations (manager (after ending (created_world [Raises engine_error])))
      !! sample_sid = Some (sample_entry false)
  ∧ outcome endpoint (fresh_world sample_config script) = Ok tt
  ∧ conversations (manager (after endpoint (fresh_world sample_config script)))
      !! sample_sid = Some (sample_entry false).
Proof. vm_compute. done. Qed.

(** C8 with the agent identifier unset. *)
Lemma create_conversation_unconfigured_witness :
  ∃ w', create_conversation no_agent_config sample_ws None (fresh_world no_agent_config [])
        = (Raise (HTTPException 500 "ElevenLabs not properly configured"), w')
    ∧ manager w' = manager (fresh_world no_agent_config [])
    ∧ heap w' = heap (fresh_world no_agent_config [])
    ∧ next_ref w' = next_ref (fresh_world no_agent_config [])
    ∧ trace w' = trace (fresh_world no_agent_config [])
    ∧ pending w' = pending (fresh_world no_agent_config []).
Proof.
  apply create_conversation_unconfigured; [reflexivity|right; reflexivity].
Defined.

(** C4 while recording, with a callback that raises. *)
Lemma queue_audio_spec_witness :
  ∃ w', queue_audio (RT := sample_runtime) 0 [x01; x02] (recording_world [Raises engine_error])
        = (Ok tt, w')
    ∧ audio_queue <$> heap w' !! 0%N = Some [[x01; x02]]
    ∧ heap w' = <[0%N := {| websocket := sample_ws; is_recording := true;
                            audio_queue := [[x01; x02]];
                            input_callback := Some 9%N; loop := Some 1%N |}]>
                  (heap (recording_world [Raises engine_error]))
    ∧ manager w' = manager (recording_world [Raises engine_error])
    ∧ trace w' = trace (recording_world [Raises engine_error]) ++
        [InputCallback 9 [x01; x02]; Raised engine_error;
         Log "error" "Error in input callback: engine unreachable"].
Proof.
  apply (queue_audio_spec (RT := sample_runtime) 0 [x01; x02]
           (sample_interface true (Some 9%N)) (recording_world [Raises engine_error])).
  vm_compute. reflexivity.
Defined.

(** C7 on the interface of a created session; the wait times out. *)
Lemma output_spec_witness :
  ∃ w', output (RT := sample_runtime) sample_config 0 [x68; x69]
          (created_world [Returns; Raises timeout_error]) = (Ok tt, w')
    ∧ heap w' = heap (created_world [Returns; Raises timeout_error])
    ∧ trace w' = trace (created_world [Returns; Raises timeout_error]) ++
        [RunCoroutineThreadsafe sample_ws
           (JObj [("type", JStr "audio"); ("audio_data", JStr "aGk=");
                  ("encoding", JStr "pcm16"); ("sample_rate_hz", JInt 24000)]) 1;
         FutureResult 2; Raised timeout_error].
Proof.
  destruct (output_spec (RT := sample_runtime) sample_config 0 [x68; x69]
              (created_world [Returns; Raises timeout_error])) as (w' & Hout & Hsent).
  exists w'. split; [exact Hout|].
  apply (Hsent (sample_interface false None) 1%N); vm_compute; reflexivity.
Defined.

(** C9 after a [stop] has removed the session. *)
Lemma start_without_session_witness :
  ∃ w', loop_iteration (RT := sample_runtime) sample_sid sample_ws
          (Message (Some start_text) None) stopped_world = (Ok tt, w')
    ∧ trace w' = trace stopped_world ++
        [SendJson sample_ws
           (JObj [("type", JStr "error");
                  ("message", JStr "Failed to start conversation: 404: Session not found")])]
    ∧ manager w' = manager stopped_world ∧ heap w' = heap stopped_world
    ∧ (Ok tt = Ok tt →
       main_loop (RT := sample_runtime) sample_sid sample_ws
         [Message (Some start_text) None; Message None None] stopped_world
       = main_loop (RT := sample_runtime) sample_sid sample_ws [Message None None] w').
Proof.
  apply (start_without_session (RT := sample_runtime) sample_sid sample_ws start_text None
           [("type", JStr "start")] [Message None None] stopped_world);
    vm_compute; reflexivity.
Defined.

(** C1, against it: the session is active, the second [start] succeeds and
    the engine's [start_session] has been called once more. *)
Lemma second_start_reaches_engine :
  let again := start_conversation (RT := sample_runtime) sample_sid JNull in
  conversations (manager (active_world [])) !! sample_sid = Some (sample_entry true)
  ∧ outcome again (active_world []) = Ok tt
  ∧ trace (after again (active_world [])) = trace (active_world []) ++
      [StartSession 1;
       Log "info" "Started ElevenLabs conversation for session: session_20250309_070500_140203"]
  ∧ StartSession 1 ∈ trace (active_world []).
Proof. vm_compute. split_and!; try reflexivity. set_solver. Qed.

(** C1 as amended, with an engine that refuses the second start. *)
Lemma start_conversation_when_active_witness :
  ∃ w' more,
    start_conversation (RT := sample_runtime) sample_sid JNull (active_world [Raises engine_error])
    = (Raise (HTTPException 500 "Failed to start conversation: engine unreachable"), w')
    ∧ trace w' = trace (active_world [Raises engine_error]) ++ StartSession 1 :: more
    ∧ conversations (manager w') = conversations (manager (active_world [Raises engine_error]))
    ∧ next_ref w' = next_ref (active_world [Raises engine_error])
    ∧ heap w' = heap (active_world [Raises engine_error]).
Proof.
  apply (start_conversation_when_active (RT := sample_runtime) sample_sid JNull
           (sample_entry true) 1%N (active_world [Raises engine_error]));
    vm_compute; reflexivity.
Defined.

(** C2, against it: a text that is not JSON raises out of the loop; the
    endpoint reports a server error, ends the session and returns, and the
    message that came after is never answered. *)
Lemma undecodable_text_ends_the_loop :
  let inbox := [Message (Some "not json") None; Message (Some hello_text) None] in
  let endpoint := websocket_conversation (RT := sample_runtime) sample_config sample_ws inbox in
  main_loop (RT := sample_runtime) sample_sid sample_ws inbox (created_world [])
  = (Raise (LibraryError "JSONDecodeError" "Expecting value: line 1 column 1 (char 0)"),
     created_world [])
  ∧ outcome endpoint (fresh_world sample_config []) = Ok tt
  ∧ trace (after endpoint (fresh_world sample_config [])) =
      [Accept sample_ws;
       Log "info" "New WebSocket connection established";
       NewConversation 1 (Some "sk-test") (Some "agent-1") true 0 sample_sid;
       Log "info" "Created conversation session: session_20250309_070500_140203";
       SendJson sample_ws
         (JObj [("type", JStr "session_created"); ("session_id", JStr sample_sid);
                ("message", JStr "Conversation session created. Send 'start' to begin.")]);
       Log "error" "WebSocket error: Expecting value: line 1 column 1 (char 0)";
       SendJson sample_ws
         (JObj [("type", JStr "error");
                ("message", JStr "Server error: Expecting value: line 1 column 1 (char 0)")]);
       EndSession 1;
       Log "info" "Ended conversation session: session_20250309_070500_140203"].
Proof. vm_compute. done. Qed.

(** C5, against it: a connection is served and ended, and a later
    connection, in the same second and with a connection object at the same
    address, gets the identifier the first one had. *)
Lemma identifier_returned_twice :
  let first := create_conversation sample_config sample_ws None in
  let second := create_conversation sample_config later_ws None in
  outcome first (fresh_world sample_config []) = Ok sample_sid
  ∧ conversations (manager stopped_world) !! sample_sid = None
  ∧ outcome second stopped_world = Ok sample_sid
  ∧ ws_conn sample_ws ≠ ws_conn later_ws
  ∧ clock stopped_world (ticks stopped_world) ≠ sample_clock 0.
Proof. vm_compute. split_and!; done. Qed.

(** C5 as amended, on those two creations. *)
Lemma create_conversation_same_id_witness :
  sample_sid = sample_sid ↔
  to_second (clock (fresh_world sample_config []) (ticks (fresh_world sample_config [])))
  = to_second (clock stopped_world (ticks stopped_world))
  ∧ ws_id sample_ws = ws_id later_ws.
Proof.
  apply (create_conversation_same_id sample_config sample_ws later_ws None None
           (fresh_world sample_config []) stopped_world
           (after (create_conversation sample_config sample_ws None)
                  (fresh_world sample_config []))
           (after (create_conversation sample_config later_ws None) stopped_world)).
  - vm_compute. reflexivity.
  - vm_compute. reflexivity.
  - vm_compute. split_and!; (done || (split; done)).
  - vm_compute. split_and!; (done || (split; done)).
Defined.

(** ** Relations every step of the relay keeps *)

Section Respects.
Context {RT : Runtime}.
Variable R : World → World → Prop.
Hypothesis R_refl : ∀ w, R w w.
Hypothesis R_trans : ∀ a b c, R a b → R b c → R a c.

Lemma respects_ret {A} (a : A) : respects R (mret a).
Proof. intros w. apply R_refl. Qed.

Lemma respects_raise {A} (e : exn) : respects R (raise (A := A) e).
Proof. intros w. apply R_refl. Qed.

Lemma respects_awaiting {A} : respects R (awaiting (A := A)).
Proof. intros w. apply R_refl. Qed.

Lemma respects_get_world : respects R get_world.
Proof. intros w. apply R_refl. Qed.

Lemma respects_lift {A} (r : exn + A) : respects R (lift r).
Proof. destruct r; intros w; apply R_refl. Qed.

Lemma respects_bind {A B} (m : M A) (f : A → M B) :
  respects R m → (∀ a, respects R (f a)) → respects R (m ≫= f).
Proof.
  intros Hm Hf w. specialize (Hm w). unfold mbind, M_bind.
  destruct (m w) as [[a|e|] w1]; cbn [snd] in *; try done.
  eapply R_trans; [exact Hm|apply Hf].
Qed.

Lemma respects_try_except {A} (m : M A) (handler : exn → M A) :
  respects R m → (∀ e, respects R (handler e)) → respects R (try_except m handler).
Proof.
  intros Hm Hh w. specialize (Hm w). unfold try_except.
  destruct (m w) as [[a|e|] w1]; cbn [snd] in *; try done.
  eapply R_trans; [exact Hm|apply Hh].
Qed.

Lemma respects_try_finally {A} (m : M A) (final : M unit) :
  respects R m → respects R final → respects R (try_finally m final).
Proof.
  intros Hm Hf w. specialize (Hm w). unfold try_finally.
  destruct (m w) as [[a|e|] w1]; cbn [snd] in *; try done.
  all: specialize (Hf w1); destruct (final w1) as [[[]|e'|] w2]; cbn [snd] in *;
    by eapply R_trans.
Qed.

Lemma respects_attempt {A} (m : M A) : respects R m → respects R (attempt m).
Proof.
  intros Hm w. specialize (Hm w). unfold attempt.
  by destruct (m w) as [[a|e|] w1].
Qed.

Hypothesis R_emit : ∀ ev, respects R (emit ev).
Hypothesis R_call : ∀ ev, respects R (call ev).
Hypothesis R_update_obj : ∀ self f, respects R (update_obj self f).

Ltac respects_with known :=
  repeat first
    [ known
    | apply R_emit | apply R_call | apply R_update_obj
    | apply respects_ret | apply respects_raise | apply respects_awaiting
    | apply respects_get_world | apply respects_lift
    | apply respects_bind | apply respects_try_except
    | apply respects_try_finally | apply respects_attempt
    | match goal with
      | |- ∀ _, _ => intro
      | |- respects _ (match ?x with _ => _ end) => destruct x
      end ].

Ltac respects_tac := respects_with fail.

Lemma respects_queue_audio self audio_data : respects R (queue_audio self audio_data).
Proof. unfold queue_audio, read_obj, log. respects_tac. Qed.

Lemma respects_receive_audio self : respects R (receive_audio self).
Proof. unfold receive_audio, read_obj, log. respects_tac. Qed.

Variable sid : string.
Hypothesis R_assign : ∀ b, respects R (assign_is_active sid b).
Hypothesis R_delete :
  respects R (modify (set_manager (set_conversations (delete sid)))).

Lemma respects_start_conversation uid : respects R (start_conversation sid uid).
Proof.
  unfold start_conversation, get_event_loop, log.
  respects_with ltac:(apply R_assign).
Qed.

Lemma respects_end_conversation : respects R (end_conversation sid).
Proof.
  unfold end_conversation, log.
  respects_with ltac:(first [apply R_assign | apply R_delete]).
Qed.

Lemma respects_handle_websocket_message message ws :
  respects R (handle_websocket_message sid message ws).
Proof.
  unfold handle_websocket_message, send_json, log.
  respects_with ltac:(first [apply respects_start_conversation
                            | apply respects_end_conversation]).
Qed.

Lemma respects_loop_iteration ws data : respects R (loop_iteration sid ws data).
Proof.
  unfold loop_iteration, log.
  respects_with ltac:(first [apply respects_handle_websocket_message
                            | apply respects_queue_audio]).
Qed.

Lemma respects_main_loop ws inbox : respects R (main_loop sid ws inbox).
Proof.
  induction inbox as [|data rest IH]; cbn [main_loop].
  - apply respects_awaiting.
  - apply respects_bind; [apply respects_loop_iteration|by intros].
Qed.

Lemma respects_on_exception ws e : respects R (on_exception ws e).
Proof. unfold on_exception, send_json, log. respects_tac. Qed.

Lemma respects_cleanup : respects R (cleanup (Some sid)).
Proof.
  unfold cleanup. destruct (truthy (Some sid)); [|apply respects_ret].
  apply respects_end_conversation.
Qed.

End Respects.

Section Isolation.
Context {RT : Runtime}.
Variable config : Config.

Lemma same_elsewhere_refl sid w : same_elsewhere sid w w.
Proof. by intros k _. Qed.

Lemma same_elsewhere_trans sid a b c :
  same_elsewhere sid a b → same_elsewhere sid b c → same_elsewhere sid a c.
Proof. intros Hab Hbc k Hk. by rewrite Hbc, Hab. Qed.

Lemma same_elsewhere_manager sid w w' :
  manager w' = manager w → same_elsewhere sid w w'.
Proof. intros Hm k _. by rewrite Hm. Qed.

Lemma same_elsewhere_call sid ev : respects (same_elsewhere sid) (call ev).
Proof. intros w. rewrite call_eq. by apply same_elsewhere_manager. Qed.

Lemma same_elsewhere_assign sid b : respects (same_elsewhere sid) (assign_is_active sid b).
Proof. intros w k Hk. unfold assign_is_active. msimpl. by rewrite lookup_alter_ne. Qed.

Lemma same_elsewhere_delete sid :
  respects (same_elsewhere sid) (modify (set_manager (set_conversations (delete sid)))).
Proof. intros w k Hk. msimpl. by rewrite lookup_delete_ne. Qed.

Lemma same_elsewhere_main_loop sid ws inbox :
  respects (same_elsewhere sid) (main_loop sid ws inbox).
Proof.
  apply respects_main_loop;
    eauto using same_elsewhere_refl, same_elsewhere_trans, same_elsewhere_call,
                same_elsewhere_assign, same_elsewhere_delete.
  all: intros; intros w; by apply same_elsewhere_manager.
Qed.

Lemma same_elsewhere_on_exception sid ws e :
  respects (same_elsewhere sid) (on_exception ws e).
Proof.
  apply respects_on_exception;
    eauto using same_elsewhere_refl, same_elsewhere_trans, same_elsewhere_call.
  intros; intros w; by apply same_elsewhere_manager.
Qed.

Lemma same_elsewhere_cleanup sid : respects (same_elsewhere sid) (cleanup (Some sid)).
Proof.
  apply respects_cleanup;
    eauto using same_elsewhere_refl, same_elsewhere_trans, same_elsewhere_call,
                same_elsewhere_assign, same_elsewhere_delete.
  all: intros; intros w; by apply same_elsewhere_manager.
Qed.

Lemma create_conversation_elsewhere ws uid w :
  same_elsewhere (session_id_of (clock w (ticks w)) ws) w
    (snd (create_conversation config ws uid w)).
Proof.
  unfold create_conversation, WebSocketAudioInterface_init, new_conversation. msimpl.
  destruct (_ || _); msimpl; [by apply same_elsewhere_manager|].
  destruct (event_loop w) as [[]|l]; msimpl; try by apply same_elsewhere_manager.
  all: rewrite call_eq; unfold answered, called, raised_mark; msimpl.
  all: destruct (pending w) as [|[|e] rest]; msimpl;
    try by apply same_elsewhere_manager.
  all: intros k Hk; msimpl; by rewrite lookup_insert_ne.
Qed.

Lemma main_loop_leaves_other_sessions sid ws inbox w k :
  k ≠ sid →
  conversations (manager (snd (main_loop sid ws inbox w))) !! k
  = conversations (manager w) !! k.
Proof. intros Hk. by apply same_elsewhere_main_loop. Qed.

(** From accept to clean-up, the endpoint changes no registry entry but the
    one under the identifier it makes for its connection. *)
Theorem endpoint_leaves_other_sessions ws inbox w k :
  k ≠ session_id_of (clock w (ticks w)) ws →
  conversations (manager (snd (websocket_conversation config ws inbox w))) !! k
  = conversations (manager w) !! k.
Proof.
  set (s := session_id_of (clock w (ticks w)) ws). intros Hk.
  cut (same_elsewhere s w (snd (websocket_conversation config ws inbox w))).
  { intros Hsame. by apply Hsame. }
  unfold websocket_conversation. unfold mbind at 1, M_bind at 1. rewrite call_eq.
  destruct (answered w) as [[]|e|]; cbn [snd]; try by apply same_elsewhere_manager.
  set (w1 := called (Accept ws) w).
  unfold mbind at 1, M_bind at 1, attempt at 1, mbind at 1, M_bind at 1, log, emit, modify.
  set (w2 := set_trace _ w1).
  pose proof (create_conversation_elsewhere ws None w2) as Hcreate.
  change (session_id_of (clock w2 (ticks w2)) ws) with s in Hcreate.
  destruct (create_conversation config ws None w2) as [[s'|e|] w3] eqn:Hc;
    cbn [snd] in Hcreate |- *.
  - apply create_conversation_returns in Hc as [Hs _].
    change (session_id_of (clock w2 (ticks w2)) ws) with s in Hs. subst s'.
    eapply same_elsewhere_trans; [exact Hcreate|].
    apply respects_try_finally;
      eauto using same_elsewhere_refl, same_elsewhere_trans, same_elsewhere_cleanup.
    apply respects_try_except;
      eauto using same_elsewhere_refl, same_elsewhere_trans, same_elsewhere_on_exception.
    apply respects_bind;
      eauto using same_elsewhere_refl, same_elsewhere_trans, same_elsewhere_call,
                  same_elsewhere_main_loop.
  - eapply same_elsewhere_trans; [exact Hcreate|].
    apply respects_try_finally;
      eauto using same_elsewhere_refl, same_elsewhere_trans, same_elsewhere_on_exception.
    unfold cleanup. cbn [truthy]. by apply respects_ret, same_elsewhere_refl.
  - exact Hcreate.
Qed.

End Isolation.

Section ManagerProperties.
Context {RT : Runtime}.
Variable config : Config.

(** *** The script of answers *)

Lemma calm_answered w : calm w → answered w = Ok tt ∧ raised_mark w = [].
Proof.
  unfold calm, answered, raised_mark. destruct (pending w) as [|[|e] rest]; try done.
  intros Hc. by apply Forall_cons_1 in Hc as [? _].
Qed.

Lemma calm_consumed w w' : calm w → script_consumed w w' → calm w'.
Proof.
  unfold calm, script_consumed. intros Hc [k Hk]. rewrite Hk in Hc.
  by apply Forall_app in Hc as [_ ?].
Qed.

Lemma script_consumed_refl w : script_consumed w w.
Proof. by unfold script_consumed. Qed.

Lemma script_consumed_trans a b c :
  script_consumed a b → script_consumed b c → script_consumed a c.
Proof. unfold script_consumed. intros Hab Hbc. by etrans. Qed.

Lemma script_consumed_same w w' : pending w' = pending w → script_consumed w w'.
Proof. unfold script_consumed. by intros ->. Qed.

Lemma script_consumed_call ev : respects script_consumed (call ev).
Proof.
  intros w. rewrite call_eq. unfold script_consumed, called. msimpl.
  destruct (pending w) as [|a rest]; [done|]. by apply suffix_cons_r.
Qed.

Lemma script_consumed_main_loop sid ws inbox :
  respects script_consumed (main_loop sid ws inbox).
Proof.
  apply respects_main_loop;
    eauto using script_consumed_refl, script_consumed_trans, script_consumed_call.
  all: intros; intros w; by apply script_consumed_same.
Qed.

Lemma script_consumed_on_exception ws e :
  respects script_consumed (on_exception ws e).
Proof.
  apply respects_on_exception;
    eauto using script_consumed_refl, script_consumed_trans, script_consumed_call.
  intros; intros w; by apply script_consumed_same.
Qed.

(** *** create_conversation *)

Lemma truthy_session_id t ws : truthy (Some (session_id_of t ws)) = true.
Proof. unfold session_id_of. by rewrite ?append_cons, ?append_nil_l. Qed.

Lemma create_conversation_succeeds ws uid l w :
  is_Some (elevenlabs_client (manager w)) →
  truthy (AGENT_ID config) = true →
  event_loop w = inr l →
  answered w = Ok tt →
  ∃ c w', create_conversation config ws uid w
          = (Ok (session_id_of (clock w (ticks w)) ws), w')
    ∧ conversations (manager w')
      = <[session_id_of (clock w (ticks w)) ws := c]> (conversations (manager w))
    ∧ pending w' = tail (pending w).
Proof.
  intros Hclient Hagent Hl Ha.
  unfold create_conversation, WebSocketAudioInterface_init, new_conversation. msimpl.
  destruct (_ || _) eqn:Hguard.
  { rewrite bool_decide_eq_true_2, Hagent in Hguard by done. done. }
  msimpl. rewrite Hl. msimpl. rewrite call_eq.
  unfold answered in Ha. unfold answered, called, raised_mark. msimpl.
  destruct (pending w) as [|[|e] rest]; try done; msimpl; cbn [tail];
    by eexists _, _.
Qed.

(** A creation that goes through registers one entry, inactive, under the
    identifier it returns, with a new audio interface (not recording, empty
    queue, no callback, holding the current loop) and an engine handle built
    around it; every other entry and object is as before. *)
Theorem create_conversation_registers ws uid l w :
  is_Some (elevenlabs_client (manager w)) →
  truthy (AGENT_ID config) = true →
  event_loop w = inr l →
  answered w = Ok tt →
  ∃ w', create_conversation config ws uid w
        = (Ok (session_id_of (clock w (ticks w)) ws), w')
    ∧ conversations (manager w')
      = <[session_id_of (clock w (ticks w)) ws :=
            {| conversation := N.succ (next_ref w); conv_websocket := ws;
               audio_interface := next_ref w; user_id := uid;
               created_at := clock w (S (ticks w)); is_active := false |}]>
          (conversations (manager w))
    ∧ heap w'
      = <[next_ref w := {| websocket := ws; is_recording := false; audio_queue := [];
                           input_callback := None; loop := Some l |}]> (heap w)
    ∧ trace w'
      = trace w ++
        [NewConversation (N.succ (next_ref w)) (elevenlabs_client (manager w))
           (AGENT_ID config) (truthy (ELEVENLABS_API_KEY config)) (next_ref w)
           (session_id_of (clock w (ticks w)) ws);
         Log "info" ("Created conversation session: " +:+
                     session_id_of (clock w (ticks w)) ws)]
    ∧ pending w' = tail (pending w).
Proof.
  intros Hclient Hagent Hl Ha.
  unfold create_conversation, WebSocketAudioInterface_init, new_conversation. msimpl.
  destruct (_ || _) eqn:Hguard.
  { rewrite bool_decide_eq_true_2, Hagent in Hguard by done. done. }
  msimpl. rewrite Hl. msimpl. rewrite call_eq.
  unfold answered in Ha. unfold answered, called, raised_mark. msimpl.
  destruct (pending w) as [|[|e] rest]; try done; msimpl; cbn [tail];
    (eexists; split; [reflexivity|]; msimpl; split_and!; try done;
     by rewrite <- app_assoc).
Qed.

(** A creation that does not go through, for whatever reason, leaves the
    registry exactly as it was. *)
Theorem create_conversation_all_or_nothing ws uid w :
  (∀ s, fst (create_conversation config ws uid w) ≠ Ok s) →
  manager (snd (create_conversation config ws uid w)) = manager w.
Proof.
  unfold create_conversation, WebSocketAudioInterface_init, new_conversation. msimpl.
  destruct (_ || _); msimpl; [done|].
  destruct (event_loop w) as [[]|l]; msimpl; try done.
  all: rewrite call_eq; unfold answered, called, raised_mark; msimpl.
  all: destruct (pending w) as [|[|e] rest]; msimpl; try done.
  all: intros Hno; by destruct (Hno _ eq_refl).
Qed.

(** *** start_conversation and end_conversation *)

(** [start_conversation] on a registered session, when the engine's call
    returns: the session's entry has [is_active] true and its other fields
    as before, no other entry changes, no object is made, and the calls are
    [start_session] on the session's handle and the log.  When the call
    raises, the registry is as it was: the session stays registered and can
    be started again. *)
Theorem start_conversation_marks_active sid uid c l w :
  conversations (manager w) !! sid = Some c →
  event_loop w = inr l →
  (answered w = Ok tt →
   fst (start_conversation sid uid w) = Ok tt
   ∧ is_active <$> conversations (manager (snd (start_conversation sid uid w))) !! sid
     = Some true
   ∧ conversations (manager (snd (start_conversation sid uid w)))
     = <[sid := {| conversation := conversation c; conv_websocket := conv_websocket c;
                   audio_interface := audio_interface c; user_id := user_id c;
                   created_at := created_at c; is_active := true |}]>
         (conversations (manager w))
   ∧ elevenlabs_client (manager (snd (start_conversation sid uid w)))
     = elevenlabs_client (manager w)
   ∧ next_ref (snd (start_conversation sid uid w)) = next_ref w
   ∧ trace (snd (start_conversation sid uid w))
     = trace w ++ [StartSession (conversation c);
                   Log "info" ("Started ElevenLabs conversation for session: " +:+ sid)])
  ∧ (∀ e, answered w = Raise e →
     fst (start_conversation sid uid w)
     = Raise (HTTPException 500 ("Failed to start conversation: " +:+ exc_str e))
     ∧ manager (snd (start_conversation sid uid w)) = manager w).
Proof.
  intros Hc Hl. rewrite (start_conversation_registered sid uid c l w Hc Hl).
  assert (alter (set_is_active true) sid (conversations (manager w))
          = <[sid := {| conversation := conversation c; conv_websocket := conv_websocket c;
                        audio_interface := audio_interface c; user_id := user_id c;
                        created_at := created_at c; is_active := true |}]>
              (conversations (manager w))) as Halter.
  { apply map_eq; intros i. destruct (decide (sid = i)) as [->|Hne].
    - by rewrite lookup_alter_eq, lookup_insert_eq, Hc.
    - by rewrite lookup_alter_ne, lookup_insert_ne. }
  unfold answered. destruct (pending w) as [|[|e] rest]; msimpl;
    (split; [intros ?|intros e' ?]); simplify_eq;
    rewrite ?Halter, ?lookup_insert_eq; done.
Qed.


Lemma end_conversation_calm sid w :
  calm w →
  conversations (manager (snd (end_conversation sid w))) !! sid = None
  ∧ fst (end_conversation sid w) = Ok tt.
Proof.
  intros [Ha _]%calm_answered.
  destruct (conversations (manager w) !! sid) as [c|] eqn:Hc.
  - rewrite (end_conversation_engine_returns sid c w Hc Ha). msimpl.
    split; [|done]. apply lookup_delete_eq.
  - by rewrite end_conversation_absent.
Qed.

(** Creating a session under a free identifier and ending it again, with an
    engine that cooperates, gives the registry back as it was. *)
Theorem create_then_end_restores_registry ws uid l w :
  calm w →
  is_Some (elevenlabs_client (manager w)) →
  truthy (AGENT_ID config) = true →
  event_loop w = inr l →
  conversations (manager w) !! session_id_of (clock w (ticks w)) ws = None →
  ∃ s w1 w2,
    create_conversation config ws uid w = (Ok s, w1)
    ∧ end_conversation s w1 = (Ok tt, w2)
    ∧ conversations (manager w2) = conversations (manager w).
Proof.
  intros Hcalm Hclient Hagent Hl Hfree.
  destruct (calm_answered w Hcalm) as [Ha _].
  destruct (create_conversation_succeeds ws uid l w Hclient Hagent Hl Ha)
    as (c & w1 & Hcreate & Hreg & Hp).
  assert (calm w1) as Hcalm1.
  { apply (calm_consumed w); [done|]. unfold script_consumed. rewrite Hp.
    destruct (pending w); [done|by apply suffix_cons_r]. }
  destruct (calm_answered w1 Hcalm1) as [Ha1 _].
  eexists _, w1, _. split; [exact Hcreate|].
  erewrite end_conversation_engine_returns;
    [|by rewrite Hreg, lookup_insert_eq|done].
  split; [reflexivity|]. msimpl.
  rewrite Hreg, delete_alter_eq, delete_insert_eq. by apply delete_id.
Qed.

End ManagerProperties.

Section HandlerProperties.
Context {RT : Runtime}.
Variable config : Config.

(** *** Control messages *)

(** A [text] message is echoed back, whether or not the connection has a
    session and whatever its state: the engine is not called, and registry
    and audio interfaces are untouched.  A missing text is the empty string. *)
Theorem text_message_echo sid fields ws w :
  assoc_get "type" fields = Some (JStr "text") →
  ∃ w', handle_websocket_message sid (JObj fields) ws w = (answered w, w')
    ∧ trace w' = trace w ++
        Log "info" ("Received text input: " +:+
                    py_str (default (JStr "") (assoc_get "text" fields)))
        :: SendJson ws
             (JObj [("type", JStr "text_response");
                    ("text", JStr ("Echo: " +:+
                                   py_str (default (JStr "") (assoc_get "text" fields))))])
        :: raised_mark w
    ∧ manager w' = manager w ∧ heap w' = heap w.
Proof.
  intros Hty. unfold handle_websocket_message, dict_get. msimpl. rewrite Hty.
  cbn [default from_option id eq_str String.eqb Ascii.eqb Bool.eqb]. msimpl.
  rewrite call_eq. eexists; split; [reflexivity|].
  unfold called, raised_mark. msimpl. split_and!; try done.
  by rewrite <- app_assoc.
Qed.

(** A [stop] message is always answered with [conversation_stopped], once
    [end_conversation] has run: also when no session was registered, and
    also when the engine refused to end and the session is still there. *)
Theorem stop_message_reply sid fields ws w :
  assoc_get "type" fields = Some (JStr "stop") →
  ∃ w1 w',
    end_conversation sid w = (Ok tt, w1)
    ∧ handle_websocket_message sid (JObj fields) ws w = (answered w1, w')
    ∧ trace w' = trace w1 ++
        SendJson ws (JObj [("type", JStr "conversation_stopped");
                           ("message", JStr "Conversation stopped.")])
        :: raised_mark w1
    ∧ manager w' = manager w1 ∧ heap w' = heap w1.
Proof.
  intros Hty. destruct (end_conversation_returns sid w) as (w1 & Hend).
  exists w1, (called (SendJson ws (reply "conversation_stopped" "message"
                                     "Conversation stopped.")) w1).
  split; [done|]. split; [|done].
  unfold handle_websocket_message, dict_get. msimpl. rewrite Hty.
  cbn [default from_option id eq_str String.eqb Ascii.eqb Bool.eqb]. msimpl.
  rewrite Hend. apply call_eq.
Qed.


(** *** The endpoint as a whole *)

Lemma main_loop_never_returns sid ws inbox w :
  fst (main_loop sid ws inbox w) ≠ Ok tt.
Proof.
  revert w. induction inbox as [|data rest IH]; intros w; cbn [main_loop]; [done|].
  unfold mbind, M_bind.
  destruct (loop_iteration sid ws data w) as [[[]|e|] w1]; cbn [fst];
    (done || apply IH).
Qed.

(** On a server without its engine configuration, the endpoint accepts the
    connection, reports a server error to the client and returns; no session
    is registered and no audio interface is made. *)
Theorem endpoint_unconfigured ws inbox w :
  calm w →
  elevenlabs_client (manager w) = None ∨ truthy (AGENT_ID config) = false →
  ∃ w', websocket_conversation config ws inbox w = (Ok tt, w')
    ∧ manager w' = manager w ∧ heap w' = heap w
    ∧ trace w' = trace w ++
        [Accept ws;
         Log "info" "New WebSocket connection established";
         Log "error" ("WebSocket error: " +:+
                      exc_str (HTTPException 500 "ElevenLabs not properly configured"));
         SendJson ws
           (JObj [("type", JStr "error");
                  ("message",
                   JStr ("Server error: " +:+
                         exc_str (HTTPException 500 "ElevenLabs not properly configured")))])].
Proof.
  intros Hcalm Hmissing.
  assert (negb (bool_decide (is_Some (elevenlabs_client (manager w))))
          || negb (truthy (AGENT_ID config)) = true) as Hguard.
  { destruct Hmissing as [-> | ->]; [|by rewrite orb_true_r].
    by rewrite bool_decide_eq_false_2 by (by intros [? ?]). }
  unfold websocket_conversation, create_conversation, on_exception, cleanup. msimpl.
  rewrite call_eq. unfold answered, called, raised_mark. msimpl.
  unfold calm in Hcalm.
  destruct (pending w) as [|a rest]; msimpl; cbn [tail].
  - rewrite Hguard. msimpl. rewrite call_eq. unfold answered, called, raised_mark. msimpl.
    cbn [truthy]. msimpl. eexists; split; [reflexivity|]. msimpl.
    split_and!; try done. by rewrite <- !app_assoc.
  - apply Forall_cons_1 in Hcalm as [-> Hrest]. msimpl.
    rewrite Hguard. msimpl. rewrite call_eq. unfold answered, called, raised_mark. msimpl.
    destruct rest as [|b rest']; msimpl; cbn [tail truthy]; msimpl.
    + eexists; split; [reflexivity|]. msimpl.
      split_and!; try done. by rewrite <- !app_assoc.
    + apply Forall_cons_1 in Hrest as [-> _]. msimpl. cbn [truthy]. msimpl.
      eexists; split; [reflexivity|]. msimpl.
      split_and!; try done. by rewrite <- !app_assoc.
Qed.

(** With an engine and a socket that cooperate, a session never outlives its
    connection: the loop is left only by an exception (a failed receive, a
    disconnect, a text that does not decode), and once the endpoint has
    returned the identifier it created is no longer registered. *)
Theorem endpoint_removes_its_session ws inbox l w r w' :
  calm w →
  is_Some (elevenlabs_client (manager w)) →
  truthy (AGENT_ID config) = true →
  event_loop w = inr l →
  websocket_conversation config ws inbox w = (r, w') →
  r ≠ Awaiting →
  conversations (manager w') !! session_id_of (clock w (ticks w)) ws = None.
Proof.
  intros Hcalm Hclient Hagent Hl.
  set (s := session_id_of (clock w (ticks w)) ws).
  unfold websocket_conversation. unfold mbind at 1, M_bind at 1. rewrite call_eq.
  destruct (calm_answered w Hcalm) as [-> _].
  set (w1 := called (Accept ws) w).
  unfold mbind at 1, M_bind at 1, attempt at 1, mbind at 1, M_bind at 1, log, emit, modify.
  set (w2 := set_trace _ w1).
  assert (calm w2) as Hcalm2.
  { apply (calm_consumed w); [done|]. unfold script_consumed, w2, w1, called. msimpl.
    destruct (pending w); [done|by apply suffix_cons_r]. }
  destruct (calm_answered w2 Hcalm2) as [Ha2 _].
  destruct (create_conversation_succeeds config ws None l w2 Hclient Hagent Hl Ha2)
    as (c3 & w3 & -> & _ & Hp3).
  change (session_id_of (clock w2 (ticks w2)) ws) with s.
  assert (calm w3) as Hcalm3.
  { apply (calm_consumed w2); [done|]. unfold script_consumed. rewrite Hp3.
    destruct (pending w2); [done|by apply suffix_cons_r]. }
  unfold try_finally.
  match goal with |- context [try_except ?m ?h w3] => set (body := try_except m h) end.
  assert (respects script_consumed body) as Hbody.
  { apply respects_try_except;
      eauto using script_consumed_refl, script_consumed_trans, script_consumed_on_exception.
    apply respects_bind;
      eauto using script_consumed_refl, script_consumed_trans, script_consumed_call,
                  script_consumed_main_loop. }
  specialize (Hbody w3).
  destruct (body w3) as [rb w4]. cbn [snd] in Hbody.
  assert (calm w4) as Hcalm4 by by apply (calm_consumed w3).
  unfold cleanup. subst s. rewrite truthy_session_id. cbn [default from_option id].
  destruct (end_conversation_calm (session_id_of (clock w (ticks w)) ws) w4 Hcalm4)
    as [Hgone Hok].
  destruct (end_conversation _ w4) as [rf w5]. cbn [fst snd] in Hgone, Hok. subst rf.
  destruct rb as [[]|e|]; intros Hres ?; by simplify_eq.
Qed.

End HandlerProperties.

Section LoopExit.
Context {RT : Runtime}.
Variable config : Config.

(** *** What follows an exception in the loop *)

Lemma main_loop_app sid ws pre more w :
  main_loop sid ws (pre ++ more) w = (iterations sid ws pre ;; main_loop sid ws more) w.
Proof.
  revert w. induction pre as [|data pre IH]; intros w; cbn [app main_loop iterations].
  - reflexivity.
  - unfold mbind, M_bind in IH |- *.
    destruct (loop_iteration sid ws data w) as [[[]|e|] w1]; try reflexivity.
    apply IH.
Qed.

Lemma endpoint_session_phase ws inbox sid w0 w1 :
  (call (Accept ws) ;;
   log "info" "New WebSocket connection established" ;;
   create_conversation config ws None) w0 = (Ok sid, w1) →
  websocket_conversation config ws inbox w0
  = try_finally
      (try_except
         (send_json ws
            (JObj [("type", JStr "session_created");
                   ("session_id", JStr sid);
                   ("message", JStr "Conversation session created. Send 'start' to begin.")]) ;;
          main_loop sid ws inbox)
         (on_exception ws))
      (cleanup (Some sid)) w1
  ∧ truthy (Some sid) = true.
Proof.
  unfold websocket_conversation. unfold mbind, M_bind, attempt, log, emit, modify.
  destruct (call (Accept ws) w0) as [[[]|e|] wa]; try done.
  destruct (create_conversation config ws None _) as [[s|e|] w2] eqn:Hcreate; try done.
  intros ?; simplify_eq. split; [reflexivity|].
  apply create_conversation_returns in Hcreate as [-> _]. apply truthy_session_id.
Qed.

Lemma on_exception_other ws e w :
  e ≠ WebSocketDisconnect →
  on_exception ws e w
  = (answered w,
     called (SendJson ws (JObj [("type", JStr "error");
                                ("message", JStr ("Server error: " +:+ exc_str e))]))
       (set_trace (trace w ++ [Log "error" ("WebSocket error: " +:+ exc_str e)]) w)).
Proof.
  intros He. unfold on_exception. destruct e; try done; msimpl;
    by rewrite call_eq.
Qed.

Lemma endpoint_after_loop_exception ws sid pre frames w0 w1 w e :
  (call (Accept ws) ;;
   log "info" "New WebSocket connection established" ;;
   create_conversation config ws None) w0 = (Ok sid, w1) →
  (send_json ws
     (JObj [("type", JStr "session_created");
            ("session_id", JStr sid);
            ("message", JStr "Conversation session created. Send 'start' to begin.")]) ;;
   iterations sid ws pre) w1 = (Ok tt, w) →
  main_loop sid ws frames w = (Raise e, w) →
  e ≠ WebSocketDisconnect →
  ∃ w2 w3,
    websocket_conversation config ws (pre ++ frames) w0 = (answered w, w3)
    ∧ trace w2 = trace w ++
        Log "error" ("WebSocket error: " +:+ exc_str e)
        :: SendJson ws (JObj [("type", JStr "error");
                              ("message", JStr ("Server error: " +:+ exc_str e))])
        :: raised_mark w
    ∧ manager w2 = manager w ∧ heap w2 = heap w
    ∧ end_conversation sid w2 = (Ok tt, w3).
Proof.
  intros Hacc Hpre Hloop He.
  destruct (endpoint_session_phase ws (pre ++ frames) sid w0 w1 Hacc) as [-> Htruthy].
  set (w2 := called (SendJson ws (JObj [("type", JStr "error");
                                       ("message", JStr ("Server error: " +:+ exc_str e))]))
               (set_trace (trace w ++ [Log "error" ("WebSocket error: " +:+ exc_str e)]) w)).
  destruct (end_conversation_returns sid w2) as (w3 & Hend).
  exists w2, w3. split.
  - unfold try_finally, try_except.
    assert ((send_json ws
               (JObj [("type", JStr "session_created");
                      ("session_id", JStr sid);
                      ("message", JStr "Conversation session created. Send 'start' to begin.")]) ;;
             main_loop sid ws (pre ++ frames)) w1 = (Raise e, w)) as ->.
    { unfold mbind, M_bind in Hpre |- *.
      destruct (send_json ws _ w1) as [[[]|e'|] ws1]; try done.
      rewrite main_loop_app. unfold mbind, M_bind. by rewrite Hpre. }
    rewrite (on_exception_other ws e w He). fold w2.
    unfold cleanup. rewrite Htruthy. cbn [default from_option id].
    destruct (answered_cases w) as [[-> _]|(e' & rest & _ & -> & _)]; by rewrite Hend.
  - unfold w2, called. msimpl. split_and!; try done.
    by rewrite <- app_assoc.
Qed.

(** C2 as the code has it.  A text frame that decodes to an object never
    ends the loop by itself: the iteration returns, unless a send on the
    socket raised; an unrecognized type gets the error reply that names it,
    with registry and audio interfaces untouched.  A text frame that does
    not decode, or decodes to something that is not an object, raises out
    of the loop, and what was still to be received is not looked at.  In an
    endpoint that has come to this frame, the exception is logged, a server
    error reply is sent and [end_conversation] runs for the session; the
    endpoint returns when that send returned and ends with the exception of
    the send when it raised. *)
Theorem control_message_and_loop sid ws text other rest w :
  (∀ fields, json_loads text = inr (JObj fields) →
     ∃ r w', loop_iteration sid ws (Message (Some text) other) w = (r, w')
       ∧ (r = Ok tt ∨ send_failed ws r w')
       ∧ (r = Ok tt →
          main_loop sid ws (Message (Some text) other :: rest) w = main_loop sid ws rest w')
       ∧ (∀ ty, ty = default JNull (assoc_get "type" fields) →
            eq_str ty "start" = false → eq_str ty "stop" = false →
            eq_str ty "text" = false →
            r = answered w
            ∧ trace w' = trace w ++
                SendJson ws (JObj [("type", JStr "error");
                                   ("message", JStr ("Unknown message type: " +:+ py_str ty))])
                :: raised_mark w
            ∧ manager w' = manager w ∧ heap w' = heap w))
  ∧ (∀ e, json_loads text = inl e →
       main_loop sid ws (Message (Some text) other :: rest) w = (Raise e, w))
  ∧ (∀ v, json_loads text = inr v → (∀ fields, v ≠ JObj fields) →
       main_loop sid ws (Message (Some text) other :: rest) w
       = (Raise (AttributeError ("'" +:+ type_name v +:+ "' object has no attribute 'get'")),
          w))
  ∧ (∀ e pre w0 w1,
       main_loop sid ws (Message (Some text) other :: rest) w = (Raise e, w) →
       e ≠ WebSocketDisconnect →
       (call (Accept ws) ;;
        log "info" "New WebSocket connection established" ;;
        create_conversation config ws None) w0 = (Ok sid, w1) →
       (send_json ws
          (JObj [("type", JStr "session_created");
                 ("session_id", JStr sid);
                 ("message", JStr "Conversation session created. Send 'start' to begin.")]) ;;
        iterations sid ws pre) w1 = (Ok tt, w) →
       ∃ w2 w3,
         websocket_conversation config ws (pre ++ Message (Some text) other :: rest) w0
         = (answered w, w3)
         ∧ trace w2 = trace w ++
             Log "error" ("WebSocket error: " +:+ exc_str e)
             :: SendJson ws (JObj [("type", JStr "error");
                                   ("message", JStr ("Server error: " +:+ exc_str e))])
             :: raised_mark w
         ∧ manager w2 = manager w ∧ heap w2 = heap w
         ∧ end_conversation sid w2 = (Ok tt, w3)).
Proof.
  destruct (text_frame_in_loop sid ws text other rest w) as (Hobject & Hdecode & Hother).
  split_and!; [exact Hobject|exact Hdecode|exact Hother|].
  intros e pre w0 w1 Hloop He Hacc Hpre.
  by apply (endpoint_after_loop_exception ws sid pre _ w0 w1 w e).
Qed.

End LoopExit.

(** C2 as amended: a message of unknown type in the loop; then a text that
    is not JSON, in an endpoint whose socket answers, and in one whose
    socket is closed when the server error is sent. *)
Lemma control_message_and_loop_witness :
  (∃ r w', loop_iteration (RT := sample_runtime) sample_sid sample_ws
             (Message (Some hello_text) None) (created_world []) = (r, w')
     ∧ (r = Ok tt ∨ send_failed sample_ws r w')
     ∧ r = Ok tt
     ∧ trace w' = trace (created_world []) ++
         [SendJson sample_ws
            (JObj [("type", JStr "error");
                   ("message", JStr "Unknown message type: hello")])]
     ∧ manager w' = manager (created_world []) ∧ heap w' = heap (created_world []))
  ∧ main_loop (RT := sample_runtime) sample_sid sample_ws
      [Message (Some "not json") None; Message (Some hello_text) None] (created_world [])
    = (Raise decode_error, created_world [])
  ∧ (∃ w2 w3,
       websocket_conversation (RT := sample_runtime) sample_config sample_ws
         ([] ++ [Message (Some "not json") None; Message (Some hello_text) None])
         (fresh_world sample_config [])
       = (Ok tt, w3)
       ∧ trace w2 = trace (serving_world []) ++
           [Log "error" "WebSocket error: Expecting value: line 1 column 1 (char 0)";
            SendJson sample_ws
              (JObj [("type", JStr "error");
                     ("message",
                      JStr "Server error: Expecting value: line 1 column 1 (char 0)")])]
       ∧ manager w2 = manager (serving_world []) ∧ heap w2 = heap (serving_world [])
       ∧ end_conversation (RT := sample_runtime) sample_sid w2 = (Ok tt, w3))
  ∧ (∃ w2 w3,
       websocket_conversation (RT := sample_runtime) sample_config sample_ws
         ([] ++ [Message (Some "not json") None; Message (Some hello_text) None])
         (fresh_world sample_config [Returns; Returns; Returns; Raises closed_error])
       = (Raise closed_error, w3)
       ∧ trace w2 = trace (serving_world [Returns; Returns; Returns; Raises closed_error]) ++
           [Log "error" "WebSocket error: Expecting value: line 1 column 1 (char 0)";
            SendJson sample_ws
              (JObj [("type", JStr "error");
                     ("message",
                      JStr "Server error: Expecting value: line 1 column 1 (char 0)")]);
            Raised closed_error]
       ∧ manager w2 = manager (serving_world [Returns; Returns; Returns; Raises closed_error])
       ∧ heap w2 = heap (serving_world [Returns; Returns; Returns; Raises closed_error])
       ∧ end_conversation (RT := sample_runtime) sample_sid w2 = (Ok tt, w3)).
Proof.
  split_and!.
  - destruct (control_message_and_loop (RT := sample_runtime) sample_config sample_sid
                sample_ws hello_text None [] (created_world [])) as (Hobj & _ & _ & _).
    destruct (Hobj [("type", JStr "hello")] eq_refl) as (r & w' & Hit & Hr & _ & Hty).
    exists r, w'. split; [exact Hit|]. split; [exact Hr|].
    apply (Hty (JStr "hello")); reflexivity.
  - destruct (control_message_and_loop (RT := sample_runtime) sample_config sample_sid
                sample_ws "not json" None [Message (Some hello_text) None] (created_world []))
      as (_ & Hbad & _ & _).
    apply Hbad. reflexivity.
  - destruct (control_message_and_loop (RT := sample_runtime) sample_config sample_sid
                sample_ws "not json" None [Message (Some hello_text) None] (serving_world []))
      as (_ & Hbad & _ & Hendpoint).
    apply (Hendpoint decode_error [] (fresh_world sample_config []) (accepted_world []));
      [apply Hbad; reflexivity|discriminate|vm_compute; reflexivity..].
  - destruct (control_message_and_loop (RT := sample_runtime) sample_config sample_sid
                sample_ws "not json" None [Message (Some hello_text) None]
                (serving_world [Returns; Returns; Returns; Raises closed_error]))
      as (_ & Hbad & _ & Hendpoint).
    apply (Hendpoint decode_error []
             (fresh_world sample_config [Returns; Returns; Returns; Raises closed_error])
             (accepted_world [Returns; Returns; Returns; Raises closed_error]));
      [apply Hbad; reflexivity|discriminate|vm_compute; reflexivity..].
Defined.

Section InterfaceProperties.
Context {RT : Runtime}.
Variable config : Config.

(** *** The audio queue and the recording flag *)

Lemma alter_present {A} (f : A → A) (k : N) (x : A) (m : gmap N A) :
  m !! k = Some x → alter f k m = <[k := f x]> m.
Proof.
  intros Hx. apply map_eq; intros i. destruct (decide (k = i)) as [->|Hne].
  - by rewrite lookup_alter_eq, lookup_insert_eq, Hx.
  - by rewrite lookup_alter_ne, lookup_insert_ne.
Qed.

Lemma queue_audio_effect self audio_data obj w :
  heap w !! self = Some obj →
  fst (queue_audio self audio_data w) = Ok tt
  ∧ heap (snd (queue_audio self audio_data w))
    = <[self := set_audio_queue (audio_queue obj ++ [audio_data]) obj]> (heap w)
  ∧ (input_callback obj = None ∨ is_recording obj = false →
     trace (snd (queue_audio self audio_data w)) = trace w
     ∧ pending (snd (queue_audio self audio_data w)) = pending w)
  ∧ (∀ callback, input_callback obj = Some callback → is_recording obj = true →
     ∃ more, trace (snd (queue_audio self audio_data w))
             = trace w ++ InputCallback callback audio_data :: more).
Proof.
  intros Hobj. unfold queue_audio. msimpl. rewrite Hobj. msimpl.
  pose proof (alter_present (set_audio_queue (audio_queue obj ++ [audio_data]))
                self obj (heap w) Hobj) as Halter.
  destruct (input_callback obj) as [callback|], (is_recording obj); msimpl;
    try (rewrite Halter; split_and!; try done; by intros [?|?]).
  rewrite call_eq. unfold answered, called, raised_mark. msimpl.
  destruct (pending w) as [|[|e] rest]; msimpl; rewrite Halter;
    (split_and!; [done|done|by intros [?|?]|]);
    intros cb ? _; simplify_eq; eexists; by rewrite <- ?app_assoc.
Qed.

Lemma receive_audio_takes_oldest self obj oldest others w :
  heap w !! self = Some obj →
  audio_queue obj = oldest :: others →
  receive_audio self w = (Ok oldest, set_heap (alter (set_audio_queue others) self) w).
Proof.
  intros Hobj Hq. unfold receive_audio. msimpl. rewrite Hobj. msimpl. by rewrite Hq.
Qed.

(** The queue is first in, first out: after a frame has been queued,
    [receive_audio] returns the oldest frame waiting, which is the new one
    only if the queue was empty, and leaves the others in their order. *)
Theorem receive_after_queue self audio_data obj w :
  heap w !! self = Some obj →
  ∃ w', receive_audio self (snd (queue_audio self audio_data w))
        = (Ok (hd audio_data (audio_queue obj)), w')
    ∧ audio_queue <$> heap w' !! self = Some (tail (audio_queue obj ++ [audio_data]))
    ∧ trace w' = trace (snd (queue_audio self audio_data w)).
Proof.
  intros Hobj. destruct (queue_audio_effect self audio_data obj w Hobj) as (_ & Hheap & _).
  set (w1 := snd (queue_audio self audio_data w)) in *.
  assert (heap w1 !! self = Some (set_audio_queue (audio_queue obj ++ [audio_data]) obj))
    as Hobj1 by by rewrite Hheap, lookup_insert_eq.
  assert (audio_queue obj ++ [audio_data]
          = hd audio_data (audio_queue obj) :: tail (audio_queue obj ++ [audio_data]))
    as Hsplit by by destruct (audio_queue obj).
  eexists. split.
  { apply (receive_audio_takes_oldest self _ (hd audio_data (audio_queue obj))
             (tail (audio_queue obj ++ [audio_data])) w1 Hobj1). exact Hsplit. }
  msimpl. split; [|done]. by rewrite lookup_alter_eq, Hobj1.
Qed.

Lemma receive_audio_on_empty_queue self obj w :
  heap w !! self = Some obj →
  audio_queue obj = [] →
  receive_audio self w = (Awaiting, w).
Proof.
  intros Hobj Hq. unfold receive_audio. msimpl. rewrite Hobj. msimpl. by rewrite Hq.
Qed.

(** On an empty queue [receive_audio] does not return; once a frame has
    been queued it returns exactly that frame, and the queue being empty
    again, the next [receive_audio] waits as before. *)
Theorem queue_receive_round_trip self audio_data obj w :
  heap w !! self = Some obj →
  audio_queue obj = [] →
  fst (receive_audio self w) = Awaiting
  ∧ ∃ w', receive_audio self (snd (queue_audio self audio_data w)) = (Ok audio_data, w')
      ∧ fst (receive_audio self w') = Awaiting.
Proof.
  intros Hobj Hq. split; [by rewrite (receive_audio_on_empty_queue self obj w)|].
  destruct (queue_audio_effect self audio_data obj w Hobj) as (_ & Hheap & _).
  set (w1 := snd (queue_audio self audio_data w)) in *.
  assert (heap w1 !! self = Some (set_audio_queue [audio_data] obj)) as Hobj1.
  { by rewrite Hheap, Hq, lookup_insert_eq. }
  eexists. split; [by apply (receive_audio_takes_oldest self _ audio_data [] w1 Hobj1)|].
  erewrite receive_audio_on_empty_queue; [done| |].
  - msimpl. by rewrite lookup_alter_eq, Hobj1.
  - done.
Qed.

Lemma stop_effect self obj w :
  heap w !! self = Some obj →
  heap (snd (stop self w)) = <[self := set_is_recording false obj]> (heap w)
  ∧ heap (snd (stop_listening self w)) = <[self := set_is_recording false obj]> (heap w)
  ∧ pending (snd (stop self w)) = pending w
  ∧ pending (snd (stop_listening self w)) = pending w.
Proof.
  intros Hobj. unfold stop, stop_listening. msimpl.
  by rewrite (alter_present _ _ _ _ Hobj).
Qed.

(** After [stop], as after [stop_listening], a frame that comes in is kept
    in the queue and no call is made, whatever callback is registered. *)
Theorem queue_audio_after_stop self audio_data obj w :
  heap w !! self = Some obj →
  (∀ w1, w1 = snd (stop self w) ∨ w1 = snd (stop_listening self w) →
     fst (queue_audio self audio_data w1) = Ok tt
     ∧ trace (snd (queue_audio self audio_data w1)) = trace w1
     ∧ pending (snd (queue_audio self audio_data w1)) = pending w1
     ∧ audio_queue <$> heap (snd (queue_audio self audio_data w1)) !! self
       = Some (audio_queue obj ++ [audio_data])).
Proof.
  intros Hobj w1 Hw1.
  destruct (stop_effect self obj w Hobj) as (Hs & Hsl & _ & _).
  assert (heap w1 !! self = Some (set_is_recording false obj)) as Hobj1.
  { destruct Hw1 as [-> | ->]; [rewrite Hs|rewrite Hsl]; apply lookup_insert_eq. }
  destruct (queue_audio_effect self audio_data _ w1 Hobj1) as (Hok & Hheap & Hquiet & _).
  destruct Hquiet as [Ht Hp]; [by right|].
  split_and!; try done. by rewrite Hheap, lookup_insert_eq.
Qed.

(** [start] registers the callback and switches recording on: the next
    frame is passed to that callback.  [stop] keeps the callback, so that
    [start_listening] after it makes frames reach the callback again. *)
Theorem queue_audio_after_start self callback audio_data obj w :
  heap w !! self = Some obj →
  (∃ more, trace (snd (queue_audio self audio_data (snd (start self callback w))))
           = trace (snd (start self callback w))
             ++ InputCallback callback audio_data :: more)
  ∧ (∃ more,
       trace (snd (queue_audio self audio_data
                     (snd (start_listening self (snd (stop self (snd (start self callback w))))))))
       = trace (snd (start_listening self (snd (stop self (snd (start self callback w))))))
         ++ InputCallback callback audio_data :: more).
Proof.
  intros Hobj. split.
  - assert (heap (snd (start self callback w)) !! self
            = Some (set_is_recording true (set_input_callback (Some callback) obj)))
      as Hobj1.
    { unfold start. msimpl. by rewrite !lookup_alter_eq, Hobj. }
    destruct (queue_audio_effect self audio_data _ _ Hobj1) as (_ & _ & _ & Hcalled).
    by apply Hcalled.
  - assert (heap (snd (start_listening self (snd (stop self (snd (start self callback w))))))
              !! self
            = Some (set_is_recording true (set_is_recording false
                      (set_is_recording true (set_input_callback (Some callback) obj)))))
      as Hobj1.
    { unfold start, stop, start_listening. msimpl. by rewrite !lookup_alter_eq, Hobj. }
    destruct (queue_audio_effect self audio_data _ _ Hobj1) as (_ & _ & _ & Hcalled).
    by apply Hcalled.
Qed.

(** [start_listening] alone does not connect the interface to the engine:
    on an interface for which [start] was never called, no callback is
    registered and the frame is only queued. *)
Theorem start_listening_without_callback self audio_data obj w :
  heap w !! self = Some obj →
  input_callback obj = None →
  trace (snd (queue_audio self audio_data (snd (start_listening self w))))
  = trace (snd (start_listening self w))
  ∧ audio_queue <$> heap (snd (queue_audio self audio_data (snd (start_listening self w))))
                      !! self
    = Some (audio_queue obj ++ [audio_data]).
Proof.
  intros Hobj Hcb.
  assert (heap (snd (start_listening self w)) !! self = Some (set_is_recording true obj))
    as Hobj1.
  { unfold start_listening. msimpl. by rewrite lookup_alter_eq, Hobj. }
  destruct (queue_audio_effect self audio_data _ _ Hobj1) as (_ & Hheap & Hquiet & _).
  destruct Hquiet as [Ht _]; [by left|].
  split; [done|]. by rewrite Hheap, lookup_insert_eq.
Qed.

(** *** output without a loop *)

(** An interface that holds no loop takes the loop of the calling context
    and keeps it; when there is none, the frame is dropped: nothing is
    scheduled, the error is logged, and [output] still returns. *)
Theorem output_without_loop self audio_data obj w :
  heap w !! self = Some obj →
  loop obj = None →
  fst (output config self audio_data w) = Ok tt
  ∧ (∀ l, event_loop w = inr l →
       loop <$> heap (snd (output config self audio_data w)) !! self = Some (Some l)
       ∧ ∃ more, trace (snd (output config self audio_data w))
                 = trace w ++
                   RunCoroutineThreadsafe (websocket obj) (audio_payload config audio_data) l
                   :: more)
  ∧ (∀ e, event_loop w = inl e →
       heap (snd (output config self audio_data w)) = heap w
       ∧ pending (snd (output config self audio_data w)) = pending w
       ∧ trace (snd (output config self audio_data w))
         = trace w ++ [Log "error" ("Error forwarding audio to WebSocket: " +:+ exc_str e)]).
Proof.
  intros Hobj Hloop. unfold output. msimpl. rewrite Hobj. msimpl. rewrite Hloop.
  destruct (event_loop w) as [e|l]; msimpl.
  { split_and!; [done|by intros ??|]. intros e' ?; by simplify_eq. }
  rewrite call_eq. unfold answered, called, raised_mark. msimpl.
  destruct (pending w) as [|[|e] rest]; msimpl; cbn [tail];
    rewrite ?call_eq; unfold answered, called, raised_mark; msimpl.
  3: { split_and!; [done| |by intros ??]. intros l' ?; simplify_eq.
       split; [by rewrite lookup_alter_eq, Hobj|]. eexists. by rewrite <- !app_assoc. }
  2: destruct rest as [|[|e] rest']; msimpl.
  all: split_and!; [done| |by intros ??]; intros l' ?; simplify_eq;
    (split; [by rewrite lookup_alter_eq, Hobj|]); eexists; by rewrite <- !app_assoc.
Qed.

End InterfaceProperties.

Section RegistryProperties.
Context {RT : Runtime}.

(** *** Shutdown *)

Lemma end_conversation_only_removes sid w :
  conversations (manager (snd (end_conversation sid w))) ⊆ conversations (manager w).
Proof.
  destruct (conversations (manager w) !! sid) as [c|] eqn:Hc.
  - destruct (answered_cases w) as [[Ha _]|(e & rest & Hp & _ & _)].
    + rewrite (end_conversation_engine_returns sid c w Hc Ha). msimpl.
      rewrite delete_alter_eq. apply delete_subseteq.
    + by rewrite (end_conversation_engine_raises sid c e rest w Hc Hp).
  - by rewrite end_conversation_absent.
Qed.

Lemma script_consumed_end_conversation sid :
  respects script_consumed (end_conversation sid).
Proof.
  apply respects_end_conversation;
    eauto using script_consumed_refl, script_consumed_trans, script_consumed_call.
  all: intros; intros w; by apply script_consumed_same.
Qed.

Lemma end_all_returns session_ids w :
  fst (end_all session_ids w) = Ok tt
  ∧ conversations (manager (snd (end_all session_ids w))) ⊆ conversations (manager w).
Proof.
  revert w. induction session_ids as [|sid rest IH]; intros w; cbn [end_all]; [done|].
  unfold mbind, M_bind.
  pose proof (end_conversation_only_removes sid w) as Hsub.
  destruct (end_conversation_returns sid w) as (w1 & Hend). rewrite Hend in Hsub |- *.
  cbn [snd] in Hsub. destruct (IH w1) as [Hok Hsub1].
  split; [done|]. by etrans.
Qed.

Lemma end_all_calm session_ids w :
  calm w →
  ∀ k, k ∈ session_ids →
       conversations (manager (snd (end_all session_ids w))) !! k = None.
Proof.
  revert w. induction session_ids as [|sid rest IH]; intros w Hcalm k Hk; cbn [end_all].
  { by apply elem_of_nil in Hk. }
  unfold mbind, M_bind.
  destruct (end_conversation_calm sid w Hcalm) as [Hgone _].
  pose proof (script_consumed_end_conversation sid w) as Hscript.
  destruct (end_conversation_returns sid w) as (w1 & Hend).
  rewrite Hend in Hgone, Hscript |- *. cbn [snd] in Hgone, Hscript.
  assert (calm w1) as Hcalm1 by by apply (calm_consumed w).
  apply elem_of_cons in Hk as [->|Hk]; [|by apply IH].
  eapply lookup_weaken_None; [exact Hgone|]. apply end_all_returns.
Qed.

Lemma end_all_in_any_order session_ids w :
  (∀ k, is_Some (conversations (manager w) !! k) → k ∈ session_ids) →
  fst (end_all session_ids w) = Ok tt
  ∧ conversations (manager (snd (end_all session_ids w))) ⊆ conversations (manager w)
  ∧ (calm w → conversations (manager (snd (end_all session_ids w))) = ∅).
Proof.
  intros Hall. destruct (end_all_returns session_ids w) as [Hok Hsub].
  split_and!; [done|done|]. intros Hcalm. apply map_empty. intros k.
  destruct (conversations (manager w) !! k) as [c|] eqn:Hc.
  - apply end_all_calm; [done|]. apply Hall. by rewrite Hc.
  - by eapply lookup_weaken_None.
Qed.

(** [shutdown_event] never raises and only ever removes sessions: what is
    left in the registry was there before, unchanged.  With an engine that
    ends every session without raising, the registry is empty afterwards. *)
Theorem shutdown_event_spec w :
  fst (shutdown_event w) = Ok tt
  ∧ conversations (manager (snd (shutdown_event w))) ⊆ conversations (manager w)
  ∧ (calm w → conversations (manager (snd (shutdown_event w))) = ∅).
Proof.
  unfold shutdown_event. msimpl.
  set (w1 := set_trace _ w).
  destruct (end_all_returns (map_to_list (conversations (manager w))).*1 w1) as [Hok Hsub].
  split_and!; [done|done|]. intros Hcalm. apply map_empty. intros k.
  destruct (conversations (manager w) !! k) as [c|] eqn:Hc.
  - apply (end_all_calm _ w1); [done|].
    apply list_elem_of_fmap. exists (k, c). split; [done|].
    by apply elem_of_map_to_list.
  - by eapply lookup_weaken_None.
Qed.

(** *** The listing *)

Lemma summary_session_id k c : dict_get (summary k c) "session_id" JNull = inr (JStr k).
Proof. reflexivity. Qed.

(** [GET /conversations] changes nothing and lists the registry: the count
    is the number of registered sessions, one item each, and an identifier
    appears in an item exactly when it is registered. *)
Theorem list_conversations_spec w :
  ∃ items,
    list_conversations w
    = (Ok (JObj [("count", JInt (Z.of_nat (size (conversations (manager w)))));
                 ("conversations", JArr items)]), w)
    ∧ length items = size (conversations (manager w))
    ∧ (∀ k c, conversations (manager w) !! k = Some c → summary k c ∈ items)
    ∧ (∀ k, (∃ item, item ∈ items ∧ dict_get item "session_id" JNull = inr (JStr k))
            ↔ is_Some (conversations (manager w) !! k)).
Proof.
  eexists. unfold list_conversations. msimpl.
  rewrite length_fmap, length_map_to_list. split; [reflexivity|].
  split; [by rewrite length_fmap, length_map_to_list|]. split.
  - intros k c Hc. apply list_elem_of_fmap. exists (k, c). split; [done|].
    by apply elem_of_map_to_list.
  - intros k. split.
    + intros (item & [[k' c] [-> Hin]]%list_elem_of_fmap & Hid).
      cbn [fst snd] in Hid. rewrite summary_session_id in Hid. simplify_eq.
      exists c. by apply elem_of_map_to_list.
    + intros [c Hc]. exists (summary k c). split; [|apply summary_session_id].
      apply list_elem_of_fmap. exists (k, c). split; [done|].
      by apply elem_of_map_to_list.
Qed.

(** Once [end_conversation] went through, the listing is one item shorter
    and no item carries the identifier any more. *)
Theorem listing_after_end sid c w :
  conversations (manager w) !! sid = Some c →
  answered w = Ok tt →
  ∃ items,
    fst (list_conversations (snd (end_conversation sid w)))
    = Ok (JObj [("count", JInt (Z.of_nat (size (conversations (manager w))) - 1));
                ("conversations", JArr items)])
    ∧ ∀ item, item ∈ items → dict_get item "session_id" JNull ≠ inr (JStr sid).
Proof.
  intros Hc Ha. rewrite (end_conversation_engine_returns sid c w Hc Ha). cbn [snd].
  eexists. unfold list_conversations. msimpl. rewrite delete_alter_eq.
  rewrite length_fmap, length_map_to_list, map_size_delete_Some by done.
  assert (size (conversations (manager w)) ≠ 0) as Hpos.
  { intros Hz. apply map_size_empty_inv in Hz. by rewrite Hz in Hc. }
  replace (Z.of_nat (pred (size (conversations (manager w)))))
    with (Z.of_nat (size (conversations (manager w))) - 1)%Z by lia.
  split; [reflexivity|].
  intros item [[k c'] [-> Hin]]%list_elem_of_fmap. cbn [fst snd].
  rewrite summary_session_id. intros ?; simplify_eq.
  apply elem_of_map_to_list in Hin. by rewrite lookup_delete_eq in Hin.
Qed.

End RegistryProperties.

(** *** The base64 payload *)

Lemma b64_index_char (n : N) : (n < 64)%N → b64_index (b64_char n) = n.
Proof.
  intros Hn.
  assert (forallb (λ k, N.eqb (b64_index (b64_char (N.of_nat k))) (N.of_nat k))
                  (seq 0 64) = true) as Hall by (vm_compute; reflexivity).
  rewrite forallb_forall in Hall.
  specialize (Hall (N.to_nat n)). rewrite N2Nat.id in Hall.
  apply N.eqb_eq, Hall, in_seq. lia.
Qed.

Lemma b64_char_inj (m n : N) :
  (m < 64)%N → (n < 64)%N → b64_char m = b64_char n → m = n.
Proof.
  intros Hm Hn Heq. by rewrite <- (b64_index_char m), <- (b64_index_char n), Heq.
Qed.

Lemma b64_char_not_pad (n : N) : (n < 64)%N → b64_char n ≠ "="%char.
Proof.
  intros Hn Heq. apply (f_equal b64_index) in Heq.
  rewrite b64_index_char in Heq by done. vm_compute in Heq. lia.
Qed.

Lemma byte_bounded (x : byte) : (Byte.to_N x < 256)%N.
Proof. by destruct x. Qed.

Lemma byte_to_N_inj (x y : byte) : Byte.to_N x = Byte.to_N y → x = y.
Proof.
  intros Heq. apply (f_equal Byte.of_N) in Heq.
  rewrite !Byte.of_to_N in Heq. by simplify_eq.
Qed.

Lemma list_ind3 {A} (P : list A → Prop) :
  P [] → (∀ x, P [x]) → (∀ x y, P [x; y]) →
  (∀ x y z l, P l → P (x :: y :: z :: l)) →
  ∀ l, P l.
Proof.
  intros H0 H1 H2 H3. fix IH 1.
  intros [|x [|y [|z l]]]; [apply H0|apply H1|apply H2|apply H3, IH].
Qed.

Lemma b64encode_one x :
  b64encode [x]
  = String (b64_char (Byte.to_N x `div` 4))
      (String (b64_char ((Byte.to_N x `mod` 4) * 16)) "==").
Proof. reflexivity. Qed.

Lemma b64encode_two x y :
  b64encode [x; y]
  = String (b64_char (Byte.to_N x `div` 4))
      (String (b64_char ((Byte.to_N x `mod` 4) * 16 + Byte.to_N y `div` 16))
         (String (b64_char ((Byte.to_N y `mod` 16) * 4)) "=")).
Proof. reflexivity. Qed.

Lemma b64encode_three x y z rest :
  b64encode (x :: y :: z :: rest)
  = String (b64_char (Byte.to_N x `div` 4))
      (String (b64_char ((Byte.to_N x `mod` 4) * 16 + Byte.to_N y `div` 16))
         (String (b64_char ((Byte.to_N y `mod` 16) * 4 + Byte.to_N z `div` 64))
            (String (b64_char (Byte.to_N z `mod` 64)) (b64encode rest)))).
Proof. reflexivity. Qed.

Ltac split_byte x :=
  let Hb := fresh "Hb" in
  pose proof (byte_bounded x) as Hb;
  pose proof (N.div_mod (Byte.to_N x) 4 ltac:(done));
  pose proof (N.mod_lt (Byte.to_N x) 4 ltac:(done));
  pose proof (N.div_mod (Byte.to_N x) 16 ltac:(done));
  pose proof (N.mod_lt (Byte.to_N x) 16 ltac:(done));
  pose proof (N.div_mod (Byte.to_N x) 64 ltac:(done));
  pose proof (N.mod_lt (Byte.to_N x) 64 ltac:(done)).

Ltac name_quotients :=
  repeat match goal with
  | H : context [N.div ?a ?b] |- _ =>
      let q := fresh "q" in set (q := N.div a b) in *; clearbody q
  | H : context [N.modulo ?a ?b] |- _ =>
      let r := fresh "r" in set (r := N.modulo a b) in *; clearbody r
  end.

Ltac b64_chars :=
  repeat match goal with
  | H : String _ _ = String _ _ |- _ => injection H as ? H
  | H : b64_char _ = b64_char _ |- _ => apply b64_char_inj in H; [|lia..]
  | H : b64_char _ = "="%char |- _ => apply b64_char_not_pad in H; [done|lia]
  | H : "="%char = b64_char _ |- _ => symmetry in H
  end.

Lemma b64encode_inj (a b : bytes) : b64encode a = b64encode b → a = b.
Proof.
  revert b. induction a as [|x|x y|x y z a IH] using list_ind3;
    intros [|x' [|y' [|z' b]]] Heq;
    rewrite ?b64encode_one, ?b64encode_two, ?b64encode_three in Heq;
    try discriminate; try done.
  all: try split_byte x; try split_byte y; try split_byte z;
    try split_byte x'; try split_byte y'; try split_byte z'.
  all: name_quotients; b64_chars.
  - f_equal. apply byte_to_N_inj. lia.
  - do 2 f_equal; apply byte_to_N_inj; lia.
  - match goal with H : b64encode _ = b64encode _ |- _ => apply IH in H as -> end.
    do 3 f_equal; apply byte_to_N_inj; lia.
Qed.

(** Two different frames never give the same [audio] message: the base64
    text in [audio_data] determines the frame. *)
Theorem distinct_frames_distinct_payloads (config : Config) (a b : bytes) :
  a ≠ b → audio_payload config a ≠ audio_payload config b.
Proof.
  unfold audio_payload. intros Hne Heq. apply Hne, b64encode_inj. by simplify_eq.
Qed.

(** ** The further properties on concrete inputs *)

Example isoformat_sample :
  isoformat (sample_clock 42) = "2025-03-09T07:05:00.000042"
  ∧ isoformat (sample_clock 0) = "2025-03-09T07:05:00".
Proof. vm_compute. done. Qed.

Lemma endpoint_leaves_other_sessions_witness :
  conversations
    (manager (snd (websocket_conversation (RT := sample_runtime) sample_config other_ws
                     short_visit (created_world [])))) !! sample_sid
  = conversations (manager (created_world [])) !! sample_sid.
Proof.
  apply (endpoint_leaves_other_sessions (RT := sample_runtime) sample_config other_ws
           short_visit (created_world []) sample_sid).
  vm_compute. discriminate.
Defined.

Lemma create_conversation_registers_witness :
  ∃ w', create_conversation sample_config sample_ws (Some "ada") (fresh_world sample_config [])
        = (Ok (session_id_of (sample_clock 0) sample_ws), w')
    ∧ conversations (manager w')
      = <[session_id_of (sample_clock 0) sample_ws :=
            {| conversation := 1; conv_websocket := sample_ws; audio_interface := 0;
               user_id := Some "ada"; created_at := sample_clock 1; is_active := false |}]>
          (conversations (manager (fresh_world sample_config [])))
    ∧ heap w' = <[0%N := sample_interface false None]> (heap (fresh_world sample_config []))
    ∧ trace w'
      = trace (fresh_world sample_config []) ++
        [NewConversation 1 (Some "sk-test") (Some "agent-1") true 0
           (session_id_of (sample_clock 0) sample_ws);
         Log "info" ("Created conversation session: " +:+
                     session_id_of (sample_clock 0) sample_ws)]
    ∧ pending w' = tail (pending (fresh_world sample_config [])).
Proof.
  apply (create_conversation_registers sample_config sample_ws (Some "ada") 1%N
           (fresh_world sample_config [])); try reflexivity.
  by eexists.
Defined.

Lemma create_conversation_all_or_nothing_witness :
  manager (snd (create_conversation sample_config sample_ws None
                  (fresh_world sample_config [Raises engine_error])))
  = manager (fresh_world sample_config [Raises engine_error]).
Proof.
  apply create_conversation_all_or_nothing. intros s. vm_compute. discriminate.
Defined.

Lemma start_conversation_marks_active_witness :
  (answered (created_world []) = Ok tt →
   fst (start_conversation (RT := sample_runtime) sample_sid JNull (created_world [])) = Ok tt
   ∧ conversations
       (manager (snd (start_conversation (RT := sample_runtime) sample_sid JNull
                        (created_world []))))
     = <[sample_sid := sample_entry true]> (conversations (manager (created_world [])))
   ∧ trace (snd (start_conversation (RT := sample_runtime) sample_sid JNull
                   (created_world [])))
     = trace (created_world []) ++
       [StartSession 1;
        Log "info" ("Started ElevenLabs conversation for session: " +:+ sample_sid)])
  ∧ (∀ e, answered (created_world []) = Raise e →
     fst (start_conversation (RT := sample_runtime) sample_sid JNull (created_world []))
     = Raise (HTTPException 500
                ("Failed to start conversation: " +:+ exc_str (RT := sample_runtime) e))
     ∧ manager (snd (start_conversation (RT := sample_runtime) sample_sid JNull
                       (created_world [])))
       = manager (created_world [])).
Proof.
  destruct (start_conversation_marks_active (RT := sample_runtime) sample_sid JNull
              (sample_entry false) 1%N (created_world []))
    as [Hreturns Hraises]; [vm_compute; reflexivity..|].
  split; [|exact Hraises].
  intros Ha. destruct (Hreturns Ha) as (Hok & _ & Hreg & _ & _ & Htrace).
  split; [exact Hok|]. split; [exact Hreg|exact Htrace].
Defined.


Lemma create_then_end_restores_registry_witness :
  ∃ s w1 w2,
    create_conversation sample_config other_ws None (created_world []) = (Ok s, w1)
    ∧ end_conversation (RT := sample_runtime) s w1 = (Ok tt, w2)
    ∧ conversations (manager w2) = conversations (manager (created_world [])).
Proof.
  apply (create_then_end_restores_registry (RT := sample_runtime) sample_config other_ws
           None 1%N (created_world [])).
  - vm_compute. constructor.
  - by eexists.
  - reflexivity.
  - reflexivity.
  - vm_compute. reflexivity.
Defined.

Lemma text_message_echo_witness :
  ∃ w', handle_websocket_message (RT := sample_runtime) sample_sid
          (JObj [("type", JStr "text"); ("text", JStr "hi")]) sample_ws stopped_world
        = (answered stopped_world, w')
    ∧ trace w' = trace stopped_world ++
        Log "info" "Received text input: hi"
        :: SendJson sample_ws (JObj [("type", JStr "text_response");
                                     ("text", JStr "Echo: hi")])
        :: raised_mark stopped_world
    ∧ manager w' = manager stopped_world ∧ heap w' = heap stopped_world.
Proof.
  apply (text_message_echo (RT := sample_runtime) sample_sid
           [("type", JStr "text"); ("text", JStr "hi")] sample_ws stopped_world).
  reflexivity.
Defined.

Lemma stop_message_reply_witness :
  ∃ w1 w',
    end_conversation (RT := sample_runtime) sample_sid (created_world [Raises engine_error])
    = (Ok tt, w1)
    ∧ handle_websocket_message (RT := sample_runtime) sample_sid
        (JObj [("type", JStr "stop")]) sample_ws (created_world [Raises engine_error])
      = (answered w1, w')
    ∧ trace w' = trace w1 ++
        SendJson sample_ws (JObj [("type", JStr "conversation_stopped");
                                  ("message", JStr "Conversation stopped.")])
        :: raised_mark w1
    ∧ manager w' = manager w1 ∧ heap w' = heap w1.
Proof.
  apply (stop_message_reply (RT := sample_runtime) sample_sid [("type", JStr "stop")]
           sample_ws (created_world [Raises engine_error])).
  reflexivity.
Defined.


Lemma endpoint_unconfigured_witness :
  ∃ w', websocket_conversation (RT := sample_runtime) no_agent_config sample_ws short_visit
          (fresh_world no_agent_config []) = (Ok tt, w')
    ∧ manager w' = manager (fresh_world no_agent_config [])
    ∧ heap w' = heap (fresh_world no_agent_config [])
    ∧ trace w' = trace (fresh_world no_agent_config []) ++
        [Accept sample_ws;
         Log "info" "New WebSocket connection established";
         Log "error" "WebSocket error: 500: ElevenLabs not properly configured";
         SendJson sample_ws
           (JObj [("type", JStr "error");
                  ("message",
                   JStr "Server error: 500: ElevenLabs not properly configured")])].
Proof.
  apply (endpoint_unconfigured (RT := sample_runtime) no_agent_config sample_ws short_visit
           (fresh_world no_agent_config [])).
  - constructor.
  - right. reflexivity.
Defined.

Lemma endpoint_removes_its_session_witness :
  conversations
    (manager (after (websocket_conversation (RT := sample_runtime) sample_config sample_ws
                       short_visit) (fresh_world sample_config [])))
    !! session_id_of (clock (fresh_world sample_config [])
                            (ticks (fresh_world sample_config []))) sample_ws
  = None.
Proof.
  apply (endpoint_removes_its_session (RT := sample_runtime) sample_config sample_ws
           short_visit 1%N (fresh_world sample_config []) (Ok tt)).
  - constructor.
  - by eexists.
  - reflexivity.
  - reflexivity.
  - vm_compute. reflexivity.
  - discriminate.
Defined.

Lemma receive_after_queue_witness :
  ∃ w', receive_audio (RT := sample_runtime) 0
          (snd (queue_audio (RT := sample_runtime) 0 [x02]
                  (after (queue_audio (RT := sample_runtime) 0 [x01]) (created_world []))))
        = (Ok (hd [x02] (audio_queue (set_audio_queue [[x01]] (sample_interface false None)))),
           w')
    ∧ audio_queue <$> heap w' !! 0%N
      = Some (tail (audio_queue (set_audio_queue [[x01]] (sample_interface false None))
                    ++ [[x02]]))
    ∧ trace w'
      = trace (snd (queue_audio (RT := sample_runtime) 0 [x02]
                      (after (queue_audio (RT := sample_runtime) 0 [x01]) (created_world [])))).
Proof.
  apply (receive_after_queue (RT := sample_runtime) 0 [x02]
           (set_audio_queue [[x01]] (sample_interface false None))
           (after (queue_audio (RT := sample_runtime) 0 [x01]) (created_world []))).
  vm_compute. reflexivity.
Defined.

Lemma queue_receive_round_trip_witness :
  fst (receive_audio (RT := sample_runtime) 0 (created_world [])) = Awaiting
  ∧ ∃ w', receive_audio (RT := sample_runtime) 0
            (snd (queue_audio (RT := sample_runtime) 0 [x01; x02] (created_world [])))
          = (Ok [x01; x02], w')
      ∧ fst (receive_audio (RT := sample_runtime) 0 w') = Awaiting.
Proof.
  apply (queue_receive_round_trip (RT := sample_runtime) 0 [x01; x02]
           (sample_interface false None) (created_world [])); vm_compute; reflexivity.
Defined.

Lemma queue_audio_after_stop_witness :
  fst (queue_audio (RT := sample_runtime) 0 [x01] (snd (stop 0 (recording_world [])))) = Ok tt
  ∧ trace (snd (queue_audio (RT := sample_runtime) 0 [x01] (snd (stop 0 (recording_world [])))))
    = trace (snd (stop 0 (recording_world [])))
  ∧ pending (snd (queue_audio (RT := sample_runtime) 0 [x01]
                    (snd (stop 0 (recording_world [])))))
    = pending (snd (stop 0 (recording_world [])))
  ∧ audio_queue <$> heap (snd (queue_audio (RT := sample_runtime) 0 [x01]
                                 (snd (stop 0 (recording_world []))))) !! 0%N
    = Some (audio_queue (sample_interface true (Some 9%N)) ++ [[x01]]).
Proof.
  apply (queue_audio_after_stop (RT := sample_runtime) 0 [x01]
           (sample_interface true (Some 9%N)) (recording_world [])).
  - vm_compute. reflexivity.
  - left. reflexivity.
Defined.

Lemma queue_audio_after_start_witness :
  (∃ more, trace (snd (queue_audio (RT := sample_runtime) 0 [x01]
                         (snd (start 0 9 (created_world [])))))
           = trace (snd (start 0 9 (created_world []))) ++ InputCallback 9 [x01] :: more)
  ∧ (∃ more,
       trace (snd (queue_audio (RT := sample_runtime) 0 [x01]
                     (snd (start_listening 0 (snd (stop 0 (snd (start 0 9 (created_world []))))))))
             )
       = trace (snd (start_listening 0 (snd (stop 0 (snd (start 0 9 (created_world [])))))))
         ++ InputCallback 9 [x01] :: more).
Proof.
  apply (queue_audio_after_start (RT := sample_runtime) 0 9 [x01]
           (sample_interface false None) (created_world [])).
  vm_compute. reflexivity.
Defined.

Lemma start_listening_without_callback_witness :
  trace (snd (queue_audio (RT := sample_runtime) 0 [x01]
                (snd (start_listening 0 (created_world [])))))
  = trace (snd (start_listening 0 (created_world [])))
  ∧ audio_queue <$> heap (snd (queue_audio (RT := sample_runtime) 0 [x01]
                                 (snd (start_listening 0 (created_world []))))) !! 0%N
    = Some (audio_queue (sample_interface false None) ++ [[x01]]).
Proof.
  apply (start_listening_without_callback (RT := sample_runtime) 0 [x01]
           (sample_interface false None) (created_world [])); vm_compute; reflexivity.
Defined.

Lemma output_without_loop_witness :
  fst (output (RT := sample_runtime) sample_config 0 [x68; x69] (loopless_world (inr 7%N) []))
  = Ok tt
  ∧ loop <$> heap (snd (output (RT := sample_runtime) sample_config 0 [x68; x69]
                          (loopless_world (inr 7%N) []))) !! 0%N
    = Some (Some 7%N)
  ∧ trace (snd (output (RT := sample_runtime) sample_config 0 [x68; x69]
                  (loopless_world (inl (RuntimeError "no current event loop")) [Raises engine_error])))
    = [Log "error" "Error forwarding audio to WebSocket: no current event loop"].
Proof.
  destruct (output_without_loop (RT := sample_runtime) sample_config 0 [x68; x69]
              {| websocket := sample_ws; is_recording := false; audio_queue := [];
                 input_callback := None; loop := None |}
              (loopless_world (inr 7%N) []) eq_refl eq_refl) as (Hok & Hadopt & _).
  destruct (output_without_loop (RT := sample_runtime) sample_config 0 [x68; x69]
              {| websocket := sample_ws; is_recording := false; audio_queue := [];
                 input_callback := None; loop := None |}
              (loopless_world (inl (RuntimeError "no current event loop"))
                 [Raises engine_error]) eq_refl eq_refl) as (_ & _ & Hdrop).
  split; [exact Hok|]. split.
  - apply (Hadopt 7%N). reflexivity.
  - apply (Hdrop (RuntimeError "no current event loop")). reflexivity.
Defined.

Lemma shutdown_event_spec_witness :
  fst (shutdown_event (RT := sample_runtime) (two_sessions_world [])) = Ok tt
  ∧ conversations (manager (snd (shutdown_event (RT := sample_runtime) (two_sessions_world []))))
    = ∅.
Proof.
  destruct (shutdown_event_spec (RT := sample_runtime) (two_sessions_world []))
    as (Hok & _ & Hempty).
  split; [exact Hok|]. apply Hempty. vm_compute. constructor.
Defined.

Lemma list_conversations_spec_witness :
  ∃ items,
    list_conversations (two_sessions_world [])
    = (Ok (JObj [("count", JInt (Z.of_nat (size (conversations (manager (two_sessions_world []))))));
                 ("conversations", JArr items)]), two_sessions_world [])
    ∧ length items = 2
    ∧ summary sample_sid (sample_entry false) ∈ items.
Proof.
  destruct (list_conversations_spec (two_sessions_world []))
    as (items & Hlist & Hlen & Hin & _).
  exists items. split; [exact Hlist|]. split.
  - rewrite Hlen. vm_compute. reflexivity.
  - apply Hin. vm_compute. reflexivity.
Defined.

Lemma listing_after_end_witness :
  ∃ items,
    fst (list_conversations
           (snd (end_conversation (RT := sample_runtime) sample_sid (two_sessions_world []))))
    = Ok (JObj [("count",
                 JInt (Z.of_nat (size (conversations (manager (two_sessions_world [])))) - 1));
                ("conversations", JArr items)])
    ∧ ∀ item, item ∈ items → dict_get item "session_id" JNull ≠ inr (JStr sample_sid).
Proof.
  apply (listing_after_end (RT := sample_runtime) sample_sid (sample_entry false)
           (two_sessions_world [])); vm_compute; reflexivity.
Defined.

Lemma distinct_frames_distinct_payloads_witness :
  audio_payload sample_config [x68; x69] ≠ audio_payload sample_config [x68; x6a].
Proof.
  apply (distinct_frames_distinct_payloads sample_config [x68; x69] [x68; x6a]).
  discriminate.
Defined.
